(** * configSDC: spreadsheet rows to opening-hour rules

    A shallow embedding of the pure part of [configSDC.py]
    (class [CalendarManager]): cell cleaning, row grouping, the read
    step, the consolidation of a group's rows into time slots and the
    construction of the opening-hours payloads.

    Python values are modelled as follows.
    - [str]      : [string]; a character is its code point, and the model
                   covers the code points below 256 (ASCII and Latin-1).
                   The character classes of [str.strip], [str.lower],
                   [str.isdigit] and [int] follow the Unicode data of that
                   range.
    - [int]      : [Z] (weekday numbers, minutes); list lengths and column
                   indexes, which are never negative here, are [nat].
    - [list]     : [list]; [l.append(x)] is [l ++ [x]].
    - [dict]     : an association list in insertion order without repeated
                   keys, the order in which [dict.items()] iterates.
    - exceptions : a result type [res A = exn + A].
    Calls of [logger] do not change any returned value; they are recorded
    only for [read_spreadsheet] and [run], where the log is part of what is
    specified. *)

From Stdlib Require Import List String Ascii ZArith NArith Lia Bool Arith.
From Stdlib Require Import DecimalString DecimalPos Permutation Sorted.
Import ListNotations.

Open Scope string_scope.
Open Scope list_scope.

(** ** Exceptions *)

Inductive exn : Type :=
| IndexError
| KeyError
| ValueError
| RequestException.

Definition res (A : Type) : Type := (exn + A)%type.

Definition ret {A : Type} (a : A) : res A := inr a.
Definition raise {A : Type} (e : exn) : res A := inl e.

Definition bind {A B : Type} (m : res A) (k : A -> res B) : res B :=
  match m with
  | inl e => inl e
  | inr a => k a
  end.

Notation "x <- m ;; k" := (bind m (fun x => k))
  (at level 61, m at next level, right associativity).

(** [try: body except ValueError: handler] *)
Definition try_except_ValueError {A : Type} (body : res A) (handler : res A) : res A :=
  match body with
  | inl ValueError => handler
  | other => other
  end.

(** [l[i]] for [i >= 0] *)
Definition getitem {A : Type} (l : list A) (i : nat) : res A :=
  match nth_error l i with
  | Some a => ret a
  | None => raise IndexError
  end.

(** [for x in l: acc = body(x, acc)], stopping at the first exception *)
Fixpoint for_each {A S : Type} (l : list A) (body : A -> S -> res S) (s : S) : res S :=
  match l with
  | [] => ret s
  | x :: l' => s' <- body x s ;; for_each l' body s'
  end.

(** ** Python strings *)

Definition ord (c : ascii) : N := N_of_ascii c.

Definition in_range (lo hi : N) (c : ascii) : bool :=
  ((lo <=? ord c) && (ord c <=? hi))%N.

(** [c.isspace()]: TAB..CR, FS..US, SPACE, NEL, NBSP *)
Definition isspace (c : ascii) : bool :=
  in_range 9 13 c || in_range 28 32 c || (ord c =? 133)%N || (ord c =? 160)%N.

(** Decimal digits (category Nd), the characters [\d] and [int] accept *)
Definition isdecimal_char (c : ascii) : bool := in_range 48 57 c.

(** [c.isdigit()]: the decimal digits and the superscripts 2, 3 and 1 *)
Definition isdigit_char (c : ascii) : bool :=
  isdecimal_char c || (ord c =? 178)%N || (ord c =? 179)%N || (ord c =? 185)%N.

(** [c.lower()]: A..Z and the Latin-1 capitals except the multiplication sign *)
Definition lower_char (c : ascii) : ascii :=
  if in_range 65 90 c || in_range 192 214 c || in_range 216 222 c
  then ascii_of_N (ord c + 32)
  else c.

Fixpoint lower (s : string) : string :=
  match s with
  | EmptyString => EmptyString
  | String c s' => String (lower_char c) (lower s')
  end.

Fixpoint lstrip (s : string) : string :=
  match s with
  | EmptyString => EmptyString
  | String c s' => if isspace c then lstrip s' else s
  end.

Fixpoint rstrip (s : string) : string :=
  match s with
  | EmptyString => EmptyString
  | String c s' =>
      match rstrip s' with
      | EmptyString => if isspace c then EmptyString else String c EmptyString
      | r => String c r
      end
  end.

(** [s.strip()] *)
Definition strip (s : string) : string := rstrip (lstrip s).

Fixpoint all_chars (p : ascii -> bool) (s : string) : bool :=
  match s with
  | EmptyString => true
  | String c s' => p c && all_chars p s'
  end.

(** [s.isdigit()]: at least one character, all of them digits *)
Definition isdigit (s : string) : bool :=
  match s with
  | EmptyString => false
  | _ => all_chars isdigit_char s
  end.

(** [bool(s)] *)
Definition truthy (s : string) : bool :=
  match s with
  | EmptyString => false
  | _ => true
  end.

Definition digit_value (c : ascii) : Z := (Z.of_N (ord c) - 48)%Z.

(** The digits of an [int] literal: decimal digits, single underscores
    allowed between two digits.  [acc] is the value read so far and
    [after_digit] tells whether the previous character was a digit. *)
Fixpoint int_digits (s : string) (acc : Z) (after_digit : bool) : res Z :=
  match s with
  | EmptyString => if after_digit then ret acc else raise ValueError
  | String c s' =>
      if isdecimal_char c then int_digits s' (10 * acc + digit_value c)%Z true
      else if (ord c =? 95)%N && after_digit then int_digits s' acc false
      else raise ValueError
  end.

(** The whitespace that [int] skips at both ends: TAB..CR, SPACE, NEL and
    NBSP.  The separators FS..US, which [str.strip] removes, are not part
    of it. *)
Definition int_space (c : ascii) : bool :=
  in_range 9 13 c || (ord c =? 32)%N || (ord c =? 133)%N || (ord c =? 160)%N.

Fixpoint int_lstrip (s : string) : string :=
  match s with
  | EmptyString => EmptyString
  | String c s' => if int_space c then int_lstrip s' else s
  end.

Fixpoint int_rstrip (s : string) : string :=
  match s with
  | EmptyString => EmptyString
  | String c s' =>
      match int_rstrip s' with
      | EmptyString => if int_space c then EmptyString else String c EmptyString
      | r => String c r
      end
  end.

(** The default of [sys.int_max_str_digits]; the program leaves it as it
    is.  [int] refuses a text with more digits, and [str] a number with
    more digits; signs and underscores do not count, leading zeros do. *)
Definition int_max_str_digits : N := 4300.

Fixpoint count_digits (s : string) : N :=
  match s with
  | EmptyString => 0
  | String c s' =>
      if isdecimal_char c then N.succ (count_digits s') else count_digits s'
  end.

(** The digits of a literal, sign removed *)
Definition int_body (s : string) : res Z :=
  v <- int_digits s 0%Z false ;;
  if (int_max_str_digits <? count_digits s)%N then raise ValueError else ret v.

(** [int(s)] in base 10: surrounding whitespace, an optional sign, digits *)
Definition int (s : string) : res Z :=
  match int_rstrip (int_lstrip s) with
  | EmptyString => raise ValueError
  | String c r =>
      if (ord c =? 43)%N then int_body r
      else if (ord c =? 45)%N then v <- int_body r ;; ret (- v)%Z
      else int_body (String c r)
  end.

(** The decimal text of an integer *)
Definition decimal (n : Z) : string := NilZero.string_of_int (Z.to_int n).

(** [str(n)]: the decimal text, or [ValueError] when the number has more
    than [int_max_str_digits] digits *)
Definition str (n : Z) : res string :=
  let text := decimal n in
  if (int_max_str_digits <? count_digits text)%N then raise ValueError
  else ret text.

(** [x in l] for a list of strings *)
Fixpoint str_in (x : string) (l : list string) : bool :=
  match l with
  | [] => false
  | y :: l' => (x =? y) || str_in x l'
  end.

(** [sorted(l)] for a list of integers *)
Fixpoint insert_sorted (x : Z) (l : list Z) : list Z :=
  match l with
  | [] => [x]
  | y :: l' => if (x <=? y)%Z then x :: l else y :: insert_sorted x l'
  end.

Definition sorted (l : list Z) : list Z := fold_right insert_sorted [] l.

(** ** [datetime.strptime(s, '%H:%M')]

    The library turns the format into the regular expression
    [(?P<H>2[0-3]|[0-1]\d|\d):(?P<M>[0-5]\d|\d)], matches it at the start
    of the string, and raises [ValueError] when it does not match or when
    the match stops before the end of the string.  Among the modelled
    characters [\d] matches the ten digits 0..9 only.  The matchers below take
    the rest of the expression as a continuation and try the alternatives
    from left to right, as the backtracking matcher does. *)

Definition orelse {A : Type} (x y : option A) : option A :=
  match x with
  | Some _ => x
  | None => y
  end.

Definition re_H {A : Type} (s : string) (k : Z -> string -> option A) : option A :=
  orelse
    match s with
    | String a (String b r) =>
        if (ord a =? 50)%N && in_range 48 51 b
        then k (10 * digit_value a + digit_value b)%Z r else None
    | _ => None
    end
    (orelse
       match s with
       | String a (String b r) =>
           if in_range 48 49 a && isdecimal_char b
           then k (10 * digit_value a + digit_value b)%Z r else None
       | _ => None
       end
       match s with
       | String a r => if isdecimal_char a then k (digit_value a) r else None
       | _ => None
       end).

Definition re_M {A : Type} (s : string) (k : Z -> string -> option A) : option A :=
  orelse
    match s with
    | String a (String b r) =>
        if in_range 48 53 a && isdecimal_char b
        then k (10 * digit_value a + digit_value b)%Z r else None
    | _ => None
    end
    match s with
    | String a r => if isdecimal_char a then k (digit_value a) r else None
    | _ => None
    end.

Definition re_colon {A : Type} (s : string) (k : string -> option A) : option A :=
  match s with
  | String c r => if (ord c =? 58)%N then k r else None
  | EmptyString => None
  end.

(** The hour and the minute, or [ValueError] *)
Definition strptime_HM (time_str : string) : res (Z * Z) :=
  match re_H time_str (fun h r1 =>
          re_colon r1 (fun r2 =>
            re_M r2 (fun m r3 => Some (h, m, r3)))) with
  | None => raise ValueError
  | Some (h, m, EmptyString) => ret (h, m)
  | Some (_, _, String _ _) => raise ValueError
  end.

(** ** The calendar manager *)

Definition row : Type := list string.
Definition calendar_group : Type := (string * list row)%type.

(** The fields of [self] that the modelled methods read or write *)
Record CalendarManager : Type := {
  calendar_groups : list calendar_group;
  start_date : string;
  end_date : string
}.

Definition set_calendar_groups (self : CalendarManager) (g : list calendar_group)
  : CalendarManager :=
  {| calendar_groups := g;
     start_date := start_date self;
     end_date := end_date self |}.

(** [strptime_HM] raises nothing but [ValueError], which the method
    catches. *)
Definition is_valid_time (time_str : string) : bool :=
  if lower time_str =? "chiuso" then true
  else
    match strptime_HM time_str with
    | inr _ => true
    | inl _ => false
    end.

(** *** [clean_spreadsheet_data] *)

Definition clean_cell (cell : string) : string :=
  let cell_str := strip cell in
  if str_in (lower cell_str) ["chiuso"; "closed"; ""] then "Chiuso" else cell_str.

Definition clean_row (r : row) : row :=
  fold_left (fun cleaned_row cell => cleaned_row ++ [clean_cell cell]) r [].

Definition clean_spreadsheet_data (data : list row) : list row :=
  fold_left (fun cleaned r => cleaned ++ [clean_row r]) data [].

(** *** [group_calendar_data]

    The loop threads [self] (whose [calendar_groups] it appends to),
    [current_name] and [current_group].  [row[0]] raises [IndexError] on a
    row without cells; what was appended before stays in [self]. *)

Fixpoint group_loop (data : list row) (self : CalendarManager)
    (current_name : string) (current_group : list row)
  : CalendarManager * res (string * list row) :=
  match data with
  | [] => (self, ret (current_name, current_group))
  | r :: data' =>
      match getitem r 0 with
      | inl e => (self, raise e)
      | inr cell0 =>
          if negb (truthy (strip cell0)) || (strip cell0 =? "Chiuso") then
            if truthy current_name
            then group_loop data' self current_name (current_group ++ [r])
            else group_loop data' self current_name current_group
          else
            let self' :=
              if truthy current_name
              then set_calendar_groups self
                     (calendar_groups self ++ [(current_name, current_group)])
              else self in
            group_loop data' self' cell0 [r]
      end
  end.

Definition group_calendar_data (self : CalendarManager) (data : list row)
  : CalendarManager * res unit :=
  match group_loop data self "" [] with
  | (self', inl e) => (self', raise e)
  | (self', inr (current_name, current_group)) =>
      if truthy current_name
      then (set_calendar_groups self'
              (calendar_groups self' ++ [(current_name, current_group)]), ret tt)
      else (self', ret tt)
  end.

(** *** [read_spreadsheet] and [run] *)

Inductive log_entry : Type :=
| Warning (msg : string)
| Error (msg : string)
| ErrorExc (msg : string) (e : exn).

(** [fetched] is the outcome of [self.gc.open_by_url(url).sheet1.get_all_values()].
    Every exception is caught inside the method, so the [retry] decorator,
    which only retries a call that raised, never repeats it. *)
Definition read_spreadsheet (self : CalendarManager) (fetched : res (list row))
  : CalendarManager * bool * list log_entry :=
  match fetched with
  | inl e => (self, false, [ErrorExc "Error reading spreadsheet" e])
  | inr data =>
      if match data with [] => true | _ => false end || (List.length data <? 2)%nat then
        (self, false, [Warning "No data found in spreadsheet"])
      else
        let data := skipn 2 data in
        let cleaned_data := clean_spreadsheet_data data in
        match group_calendar_data self cleaned_data with
        | (self', inr _) => (self', true, [])
        | (self', inl e) => (self', false, [ErrorExc "Error reading spreadsheet" e])
        end
  end.

(** What a run does after the result file is initialised: the calls
    [create_calendar(name, group)] it makes, in order, and its log.  The
    method returns normally in both branches. *)
Record run_result : Type := {
  run_self : CalendarManager;
  run_created : list calendar_group;
  run_log : list log_entry
}.

Definition run (self : CalendarManager) (fetched : res (list row)) : run_result :=
  match read_spreadsheet self fetched with
  | (self', false, log) =>
      {| run_self := self';
         run_created := [];
         run_log := log ++ [Error "No data available to process"] |}
  | (self', true, log) =>
      {| run_self := self';
         run_created := calendar_groups self';
         run_log := log |}
  end.

(** *** [process_opening_hours] *)

(** The key [(begin_hour, end_hour, str(meeting_min), "no")] *)
Definition SlotKey : Type := (string * string * string * string)%type.

Definition key_eqb (a b : SlotKey) : bool :=
  let '(a1, a2, a3, a4) := a in
  let '(b1, b2, b3, b4) := b in
  (a1 =? b1) && (a2 =? b2) && (a3 =? b3) && (a4 =? b4).

(** The dictionary [time_slots], in insertion order *)
Definition TimeSlots : Type := list (SlotKey * list Z).

(** [k in d] *)
Fixpoint dict_contains (k : SlotKey) (d : TimeSlots) : bool :=
  match d with
  | [] => false
  | (k', _) :: d' => key_eqb k k' || dict_contains k d'
  end.

(** [d[k]] *)
Fixpoint dict_getitem (k : SlotKey) (d : TimeSlots) : res (list Z) :=
  match d with
  | [] => raise KeyError
  | (k', v) :: d' => if key_eqb k k' then ret v else dict_getitem k d'
  end.

(** [d[k] = v]: a present key keeps its place, a new one goes last *)
Fixpoint dict_setitem (k : SlotKey) (v : list Z) (d : TimeSlots) : TimeSlots :=
  match d with
  | [] => [(k, v)]
  | (k', v') :: d' =>
      if key_eqb k k' then (k', v) :: d' else (k', v') :: dict_setitem k v d'
  end.

(** [x in l] for a list of integers *)
Definition int_in (x : Z) (l : list Z) : bool := existsb (Z.eqb x) l.

Definition days_mapping : list (Z * nat) :=
  [ (1%Z, 2); (2%Z, 5); (3%Z, 8); (4%Z, 11); (5%Z, 14); (6%Z, 17) ]%nat.

(** The body of the inner loop for one [(day_num, day_col)]; a [continue]
    returns the dictionary as it is. *)
Definition process_day (r : row) (day : Z * nat) (time_slots : TimeSlots)
  : res TimeSlots :=
  let '(day_num, day_col) := day in
  if (List.length r <=? day_col + 2)%nat then ret time_slots
  else
    c0 <- getitem r day_col ;;
    c1 <- getitem r (day_col + 1) ;;
    c2 <- getitem r (day_col + 2) ;;
    let begin_hour := strip c0 in
    let end_hour := strip c1 in
    let meeting_minutes := strip c2 in
    if (begin_hour =? "Chiuso") || (end_hour =? "Chiuso")
       || negb (truthy begin_hour) || negb (truthy end_hour)
    then ret time_slots
    else if negb (is_valid_time begin_hour && is_valid_time end_hour)
    then ret time_slots
    else
      meeting_min <-
        try_except_ValueError
          (if isdigit meeting_minutes then int meeting_minutes else ret 30%Z)
          (ret 30%Z) ;;
      text <- str meeting_min ;;
      let slot_key := (begin_hour, end_hour, text, "no") in
      let time_slots :=
        if negb (dict_contains slot_key time_slots)
        then dict_setitem slot_key [] time_slots
        else time_slots in
      days <- dict_getitem slot_key time_slots ;;
      if negb (int_in day_num days)
      then ret (dict_setitem slot_key (days ++ [day_num]) time_slots)
      else ret time_slots.

Definition process_row (r : row) (time_slots : TimeSlots) : res TimeSlots :=
  for_each days_mapping (process_day r) time_slots.

Definition process_opening_hours (group : list row) : res TimeSlots :=
  for_each group process_row [].

(** *** [create_opening_hours] *)

(** The JSON object posted for one rule *)
Record OpeningHours : Type := {
  oh_name : string;
  oh_start_date : string;
  oh_end_date : string;
  days_of_week : list Z;
  begin_hour : string;
  end_hour : string;
  is_moderated : bool;
  meeting_minutes : Z;
  interval_minutes : Z;
  meeting_queue : Z
}.

Definition opening_hours_of (self : CalendarManager) (item : SlotKey * list Z)
  : res OpeningHours :=
  let '((begin_hour, end_hour, meeting_min, is_moderated), days) := item in
  minutes <- int meeting_min ;;
  ret {| oh_name := "Orario " ++ begin_hour ++ "-" ++ end_hour;
         oh_start_date := start_date self;
         oh_end_date := end_date self;
         days_of_week := sorted days;
         begin_hour := begin_hour;
         end_hour := end_hour;
         is_moderated := lower is_moderated =? "si";
         meeting_minutes := minutes;
         interval_minutes := 0%Z;
         meeting_queue := 1%Z |}.

Section Posting.

(** The outcome of [requests.post(...)] followed by
    [response.raise_for_status()] for one payload *)
Variable post : OpeningHours -> res unit.

(** One turn of the loop over [time_slots.items()]: the payloads posted
    so far and [success].  Any exception of the body is caught. *)
Definition create_one (self : CalendarManager)
    (acc : list OpeningHours * bool) (item : SlotKey * list Z)
  : list OpeningHours * bool :=
  let '(posted, success) := acc in
  match opening_hours_of self item with
  | inl _ => (posted, false)
  | inr opening_hours =>
      match post opening_hours with
      | inl _ => (posted ++ [opening_hours], false)
      | inr _ => (posted ++ [opening_hours], success)
      end
  end.

Definition create_opening_hours (self : CalendarManager) (time_slots : TimeSlots)
  : list OpeningHours * bool :=
  fold_left (create_one self) time_slots ([], true).

End Posting.

(** Consolidation followed by rule construction, as [create_calendar]
    chains them: nothing is posted for an empty dictionary. *)
Definition opening_hours_for_group (post : OpeningHours -> res unit)
    (self : CalendarManager) (group : list row) : res (list OpeningHours) :=
  time_slots <- process_opening_hours group ;;
  match time_slots with
  | [] => ret []
  | _ => ret (fst (create_opening_hours post self time_slots))
  end.

(** ** Notions of the specification

    The definitions below follow the words of the specification (or of a
    statement proved about the code); the theorems compare them with the
    code above. *)

(** The value of a string of decimal digits, by positional weight *)
Fixpoint literal_value (s : string) : Z :=
  match s with
  | EmptyString => 0%Z
  | String c s' => (digit_value c * 10 ^ Z.of_nat (String.length s') + literal_value s')%Z
  end.

(** A non-negative integer literal: one decimal digit or more *)
Definition digit_literal (s : string) : bool :=
  match s with
  | EmptyString => false
  | _ => all_chars isdecimal_char s
  end.

(** The meeting duration of a trimmed cell: the value of a literal of at
    most [int_max_str_digits] digits, 30 for any other cell *)
Definition minutes_of (meeting_minutes : string) : Z :=
  if digit_literal meeting_minutes
     && (N.of_nat (String.length meeting_minutes) <=? int_max_str_digits)%N
  then literal_value meeting_minutes
  else 30%Z.

(** A trimmed cell that is case-insensitively "chiuso", "closed" or empty *)
Definition eq_nocase (a b : string) : bool := lower a =? lower b.

Definition closed_word (t : string) : bool :=
  eq_nocase t "chiuso" || eq_nocase t "closed" || (t =? "").

(** "HH:MM", hour 00-23 and minute 00-59, both written with two digits *)
Definition hhmm_time (s : string) : bool :=
  match s with
  | String h1 (String h2 (String c (String m1 (String m2 EmptyString)))) =>
      isdecimal_char h1 && isdecimal_char h2 && (ord c =? 58)%N
      && isdecimal_char m1 && isdecimal_char m2
      && (10 * digit_value h1 + digit_value h2 <=? 23)%Z
      && (10 * digit_value m1 + digit_value m2 <=? 59)%Z
  | _ => false
  end.

(** A field of one or two decimal digits whose value is at most [max] *)
Definition hm_field (max : Z) (f : string) : bool :=
  match f with
  | String a EmptyString => isdecimal_char a
  | String a (String b EmptyString) =>
      isdecimal_char a && isdecimal_char b
      && (10 * digit_value a + digit_value b <=? max)%Z
  | _ => false
  end.

(** The text before and after the first colon *)
Fixpoint split_at_colon (s : string) : option (string * string) :=
  match s with
  | EmptyString => None
  | String c s' =>
      if (ord c =? 58)%N then Some (EmptyString, s')
      else
        match split_at_colon s' with
        | Some (h, m) => Some (String c h, m)
        | None => None
        end
  end.

(** "H:M" with a one- or two-digit hour 0..23 and a one- or two-digit
    minute 0..59 *)
Definition hm_time (s : string) : bool :=
  match split_at_colon s with
  | Some (h, m) => hm_field 23 h && hm_field 59 m
  | None => false
  end.

(** A time cell that passes validation: "chiuso" in any letter case, or a
    time in the sense of [hm_time] *)
Definition accepted_time (s : string) : bool :=
  eq_nocase s "chiuso" || hm_time s.

(** The key under which the band at [day_col] of a row is filed, [None]
    when the day is skipped *)
Definition day_key (r : row) (day_col : nat) : option SlotKey :=
  match nth_error r day_col, nth_error r (day_col + 1), nth_error r (day_col + 2) with
  | Some c0, Some c1, Some c2 =>
      let b := strip c0 in
      let e := strip c1 in
      if (b =? "Chiuso") || (e =? "Chiuso") || (b =? "") || (e =? "") then None
      else if accepted_time b && accepted_time e
           then Some (b, e, decimal (minutes_of (strip c2)), "no")
           else None
  | _, _, _ => None
  end.

(** Adding a weekday to the day list of a key, once *)
Definition file_day (k : SlotKey) (day_num : Z) (ts : TimeSlots) : TimeSlots :=
  match dict_getitem k ts with
  | inr days => if int_in day_num days then ts else dict_setitem k (days ++ [day_num]) ts
  | inl _ => ts ++ [(k, [day_num])]
  end.

(** One row and a whole group, by the steps of the specification *)
Definition file_row (ts : TimeSlots) (r : row) : TimeSlots :=
  fold_left
    (fun ts day =>
       match day_key r (snd day) with
       | Some k => file_day k (fst day) ts
       | None => ts
       end)
    days_mapping ts.

Definition consolidate (group : list row) : TimeSlots :=
  fold_left file_row group [].

(** [day_num] is listed under key [k] *)
Definition has_day (k : SlotKey) (day_num : Z) (ts : TimeSlots) : Prop :=
  exists days, dict_getitem k ts = inr days /\ In day_num days.

(** The table invariant as the specification words it: a weekday is listed
    under one key at most *)
Definition one_key_per_day (ts : TimeSlots) : Prop :=
  forall k1 days1 k2 days2 day_num,
    In (k1, days1) ts -> In (k2, days2) ts ->
    In day_num days1 -> In day_num days2 -> k1 = k2.

(** The invariant the dictionary has: every key once, and under each key
    weekdays between 1 and 6 without repetition *)
Definition well_formed (ts : TimeSlots) : Prop :=
  NoDup (map fst ts) /\
  Forall (fun entry => NoDup (snd entry) /\
                       Forall (fun d => 1 <= d <= 6)%Z (snd entry)) ts.

(** ** Sample sheets *)

Definition closed_cells (n : nat) : row := repeat "Chiuso" n.

(** A row whose only open day starts at column [day_col] *)
Definition one_day_row (name : string) (day_col : nat) (b e m : string) : row :=
  name :: closed_cells (day_col - 1) ++ [b; e; m] ++ closed_cells (17 - day_col).

(** Monday 09:00-12:00 in the first row, Monday 14:00-18:00 in the second *)
Definition two_rules_on_monday : list row :=
  [ one_day_row "A" 2 "09:00" "12:00" "30";
    one_day_row "Chiuso" 2 "14:00" "18:00" "30" ].

(** Two header rows and a single data row *)
Definition sheet_with_one_data_row : list row :=
  [ "Calendars" :: closed_cells 19;
    "Name" :: closed_cells 19;
    one_day_row "A" 2 "09:00" "12:00" "30" ].

(** Monday with a duration cell that is not a number *)
Definition monday_without_number : list row :=
  [ one_day_row "A" 2 "09:00" "12:00" "abc" ].

(** A literal of 4301 digits *)
Definition literal_4301_digits : string :=
  string_of_list_ascii (repeat "1"%char 4301).

(** Monday with a duration cell of 4301 digits *)
Definition monday_with_long_literal : list row :=
  [ one_day_row "A" 2 "09:00" "12:00" literal_4301_digits ].

(** Monday opening at "9:30", an hour written with one digit, and Tuesday
    opening at "chiuso" in lower case *)
Definition one_digit_hour_and_lower_case : list row :=
  [ "A" :: "Chiuso" :: ["9:30"; "12:00"; "30"] ++ ["chiuso"; "13:00"; "30"]
      ++ closed_cells 12 ].

Definition a_manager : CalendarManager :=
  {| calendar_groups := [];
     start_date := "2026-01-01T00:00:00Z";
     end_date := "2027-01-01T00:00:00Z" |}.

(** ** The command line *)

(** What the terminal shows: a prompt of [input] or of [getpass], or a line
    written by [print] *)
Inductive console_event : Type :=
| Prompt (text : string)
| PromptHidden (text : string)
| Printed (text : string).

(** [get_required_input(prompt, is_password)].  [lines] are the lines the
    user will type; [input] and [getpass] take the next one and raise
    [EOFError] when none is left, which the function does not catch:
    [None] stands for that exception.  The result comes with the lines not
    read yet and with what was shown. *)
Fixpoint get_required_input (prompt : string) (is_password : bool)
    (lines : list string) : option string * list string * list console_event :=
  let ask := if is_password then PromptHidden prompt else Prompt prompt in
  match lines with
  | [] => (None, [], [ask])
  | value :: rest =>
      if truthy (strip value) then (Some value, rest, [ask])
      else
        let '(result, rest', shown) := get_required_input prompt is_password rest in
        (result, rest',
         ask :: Printed "This field is required. Please try again." :: shown)
  end.





(** ** More notions for the statements *)

(** A row that continues the group in progress: its name cell, trimmed, is
    empty or "Chiuso" *)
Definition continuation (r : row) : bool :=
  (strip (hd "" r) =? "") || (strip (hd "" r) =? "Chiuso").

(** The groups of a sheet, read from its last row upwards: the
    continuation rows met so far wait for the row that opens their group.
    The first component holds the rows still waiting. *)
Fixpoint groups_from_right (data : list row) : list row * list calendar_group :=
  match data with
  | [] => ([], [])
  | r :: data' =>
      let '(waiting, groups) := groups_from_right data' in
      if continuation r then (r :: waiting, groups)
      else ([], (hd "" r, r :: waiting) :: groups)
  end.

(** The groups in [self] once the method has flushed the last group *)
Definition flushed (state : CalendarManager * res (string * list row))
  : CalendarManager * res unit :=
  match state with
  | (self', inl e) => (self', raise e)
  | (self', inr (current_name, current_group)) =>
      if truthy current_name
      then (set_calendar_groups self'
              (calendar_groups self' ++ [(current_name, current_group)]), ret tt)
      else (self', ret tt)
  end.

(** The payload of a table entry, when its minutes are known *)
Definition payload (self : CalendarManager) (minutes : Z)
    (item : SlotKey * list Z) : OpeningHours :=
  let '((b, e, _, moderated), days) := item in
  {| oh_name := "Orario " ++ b ++ "-" ++ e;
     oh_start_date := start_date self;
     oh_end_date := end_date self;
     days_of_week := sorted days;
     begin_hour := b;
     end_hour := e;
     is_moderated := lower moderated =? "si";
     meeting_minutes := minutes;
     interval_minutes := 0%Z;
     meeting_queue := 1%Z |}.

(** A call that returned *)
Definition succeeded {A : Type} (r : res A) : bool :=
  match r with
  | inr _ => true
  | inl _ => false
  end.

(** * Proofs *)

(** ** Strings *)

Lemma lstrip_head (s : string) :
  lstrip s = EmptyString \/
  exists c s', lstrip s = String c s' /\ isspace c = false.
Proof.
  induction s as [|c s IH]; simpl.
  - now left.
  - destruct (isspace c) eqn:Hc; [exact IH|].
    right. now exists c, s.
Qed.

Lemma rstrip_idem (s : string) : rstrip (rstrip s) = rstrip s.
Proof.
  induction s as [|c s IH]; simpl; [reflexivity|].
  destruct (rstrip s) as [|d r] eqn:Hr.
  - destruct (isspace c) eqn:Hc; simpl; [reflexivity|].
    now rewrite Hc.
  - change (rstrip (String c (String d r))) with
      (match rstrip (String d r) with
       | EmptyString => if isspace c then EmptyString else String c EmptyString
       | String x y => String c (String x y)
       end).
    now rewrite IH.
Qed.

Lemma rstrip_head (c : ascii) (s : string) :
  isspace c = false -> exists r, rstrip (String c s) = String c r.
Proof.
  intros Hc. simpl. destruct (rstrip s) as [|d r].
  - rewrite Hc. now exists EmptyString.
  - now exists (String d r).
Qed.

Lemma strip_idem (s : string) : strip (strip s) = strip s.
Proof.
  unfold strip.
  destruct (lstrip_head s) as [E | (c & s' & E & Hc)]; rewrite E.
  - reflexivity.
  - destruct (rstrip_head c s' Hc) as [r Hr].
    rewrite Hr. simpl lstrip. rewrite Hc.
    rewrite <- Hr. apply rstrip_idem.
Qed.

Lemma lower_empty (s : string) : (lower s =? "") = (s =? "").
Proof. now destruct s. Qed.

Lemma truthy_eqb (s : string) : negb (truthy s) = (s =? "").
Proof. now destruct s. Qed.

(** ** [clean_spreadsheet_data] *)

Lemma fold_append_map {A B : Type} (f : A -> B) (l : list A) (acc : list B) :
  fold_left (fun done x => done ++ [f x]) l acc = acc ++ map f l.
Proof.
  revert acc. induction l as [|x l IH]; intros acc; simpl.
  - now rewrite app_nil_r.
  - rewrite IH, <- app_assoc. reflexivity.
Qed.

Lemma clean_row_map (r : row) : clean_row r = map clean_cell r.
Proof. unfold clean_row. now rewrite fold_append_map. Qed.

Lemma clean_spreadsheet_data_map (data : list row) :
  clean_spreadsheet_data data = map (map clean_cell) data.
Proof.
  unfold clean_spreadsheet_data. rewrite fold_append_map. simpl.
  apply map_ext. intros r. apply clean_row_map.
Qed.

Lemma clean_cell_idem (cell : string) : clean_cell (clean_cell cell) = clean_cell cell.
Proof.
  unfold clean_cell at 2 3.
  destruct (str_in (lower (strip cell)) ["chiuso"; "closed"; ""]) eqn:E.
  - reflexivity.
  - unfold clean_cell. rewrite strip_idem, E. reflexivity.
Qed.

Lemma clean_cell_spec (cell : string) :
  clean_cell cell = if closed_word (strip cell) then "Chiuso" else strip cell.
Proof.
  unfold clean_cell, closed_word, eq_nocase. simpl str_in.
  rewrite lower_empty, orb_false_r, orb_assoc. reflexivity.
Qed.

(** C8. [clean_spreadsheet_data] is idempotent: cleaning the output of a
    cleaning gives that output again, for every grid. *)
Theorem clean_idempotent (data : list row) :
  clean_spreadsheet_data (clean_spreadsheet_data data) = clean_spreadsheet_data data.
Proof.
  rewrite !clean_spreadsheet_data_map, map_map.
  apply map_ext. intros r. rewrite map_map.
  apply map_ext. intros cell. apply clean_cell_idem.
Qed.

(** C10. [clean_spreadsheet_data] keeps the shape of the grid: as many rows
    as the input, each with as many cells as the input row; every output
    cell is the trimmed input cell, except that a cell whose trimmed text is
    "chiuso" or "closed" in any letter case, or is empty, becomes exactly
    "Chiuso". *)
Theorem clean_shape_and_cells (data : list row) :
  List.length (clean_spreadsheet_data data) = List.length data /\
  Forall2
    (fun r cleaned_row =>
       List.length cleaned_row = List.length r /\
       Forall2
         (fun cell cleaned_cell =>
            cleaned_cell = if closed_word (strip cell) then "Chiuso" else strip cell)
         r cleaned_row)
    data (clean_spreadsheet_data data).
Proof.
  rewrite clean_spreadsheet_data_map. split.
  - apply length_map.
  - induction data as [|r data IH]; simpl; constructor; [|exact IH].
    split; [apply length_map|].
    clear IH. induction r as [|cell r IH]; simpl; constructor; [|exact IH].
    apply clean_cell_spec.
Qed.

(** ** [group_calendar_data] *)

(** With a first cell in every row the loop runs to its end and only
    appends to the groups. *)
Lemma group_loop_total (data : list row) :
  Forall (fun r => r <> []) data ->
  forall self current_name current_group,
  exists added current_name' current_group',
    group_loop data self current_name current_group =
      (set_calendar_groups self (calendar_groups self ++ added),
       inr (current_name', current_group')).
Proof.
  induction 1 as [|r data Hr _ IH]; intros self current_name current_group.
  - exists [], current_name, current_group. simpl.
    rewrite app_nil_r. now destruct self.
  - destruct r as [|cell0 cells]; [contradiction|].
    simpl group_loop. unfold getitem. simpl nth_error. cbv iota beta.
    destruct (negb (truthy (strip cell0)) || (strip cell0 =? "Chiuso")).
    + destruct (truthy current_name); apply IH.
    + destruct (truthy current_name).
      * destruct (IH (set_calendar_groups self
                        (calendar_groups self ++ [(current_name, current_group)]))
                     cell0 [cell0 :: cells]) as (added & n & g & E).
        exists ((current_name, current_group) :: added), n, g.
        cbv zeta. etransitivity; [exact E|].
        unfold set_calendar_groups. simpl. now rewrite <- app_assoc.
      * apply IH.
Qed.

(** A row without cells stops the loop with [IndexError]. *)
Lemma group_loop_empty_row (data : list row) :
  In [] data ->
  forall self current_name current_group,
  exists self',
    group_loop data self current_name current_group = (self', inl IndexError).
Proof.
  induction data as [|r data IH]; intros Hin self current_name current_group.
  - contradiction.
  - destruct r as [|cell0 cells].
    + exists self. reflexivity.
    + destruct Hin as [Hin | Hin]; [discriminate|].
      simpl group_loop. unfold getitem. simpl nth_error. cbv iota beta.
      destruct (negb (truthy (strip cell0)) || (strip cell0 =? "Chiuso"));
        destruct (truthy current_name); now apply IH.
Qed.

(** C9. [group_calendar_data] reads [row[0]] of every row: when every row
    has a cell it returns normally, having only appended groups; when some
    row has no cell it raises [IndexError] instead of returning. *)
Theorem group_calendar_data_first_cell (self : CalendarManager) (data : list row) :
  (Forall (fun r => r <> []) data ->
   exists added,
     group_calendar_data self data =
       (set_calendar_groups self (calendar_groups self ++ added), inr tt)) /\
  (In [] data ->
   exists self', group_calendar_data self data = (self', inl IndexError)).
Proof.
  split; intros H; unfold group_calendar_data.
  - destruct (group_loop_total data H self "" []) as (added & n & g & E).
    rewrite E. destruct (truthy n).
    + exists (added ++ [(n, g)]). simpl. now rewrite <- app_assoc.
    + now exists added.
  - destruct (group_loop_empty_row data H self "" []) as (self' & E).
    rewrite E. now exists self'.
Qed.

Lemma group_calendar_data_first_cell_witness :
  (exists added,
     group_calendar_data a_manager [["A"; "x"]; [""; "y"]] =
       (set_calendar_groups a_manager (calendar_groups a_manager ++ added), inr tt)) /\
  (exists self',
     group_calendar_data a_manager [["A"; "x"]; []] = (self', inl IndexError)).
Proof.
  split.
  - apply (proj1 (group_calendar_data_first_cell a_manager [["A"; "x"]; [""; "y"]])).
    repeat constructor; discriminate.
  - apply (proj2 (group_calendar_data_first_cell a_manager [["A"; "x"]; []])).
    simpl. right. left. reflexivity.
Defined.

(** C5. For four rows whose name cells are "A", "", "Chiuso" and "B",
    [group_calendar_data] appends exactly two groups, in this order: "A"
    with the first three rows, its own first row included, and "B" with the
    last row alone. *)
Theorem group_calendar_data_A_B (self : CalendarManager) (r1 r2 r3 r4 : row) :
  group_calendar_data self
    [ "A" :: r1; "" :: r2; "Chiuso" :: r3; "B" :: r4 ] =
  (set_calendar_groups self
     (calendar_groups self ++
        [ ("A", [ "A" :: r1; "" :: r2; "Chiuso" :: r3 ]);
          ("B", [ "B" :: r4 ]) ]),
   inr tt).
Proof.
  unfold group_calendar_data. cbn.
  unfold set_calendar_groups. cbn.
  rewrite <- app_assoc. reflexivity.
Qed.

(** ** [read_spreadsheet] and [run] *)

(** C2, as the code has it.  The row count is tested before the two header
    rows are removed.  A sheet of fewer than 2 rows in all makes
    [read_spreadsheet] return [False] with the warning and leaves the
    groups untouched, and [run] then creates no calendar and returns
    normally.  A sheet of 2 rows or more passes the test: its first two
    rows are removed and the rest, however short, is cleaned and grouped. *)
Theorem read_spreadsheet_short_sheet (self : CalendarManager) (data : list row) :
  (List.length data < 2 ->
   read_spreadsheet self (inr data) =
     (self, false, [Warning "No data found in spreadsheet"]) /\
   run self (inr data) =
     {| run_self := self;
        run_created := [];
        run_log := [Warning "No data found in spreadsheet";
                    Error "No data available to process"] |}) /\
  (2 <= List.length data ->
   read_spreadsheet self (inr data) =
     match group_calendar_data self (clean_spreadsheet_data (skipn 2 data)) with
     | (self', inr _) => (self', true, [])
     | (self', inl e) => (self', false, [ErrorExc "Error reading spreadsheet" e])
     end).
Proof.
  split; intros Hlen.
  - assert (E : read_spreadsheet self (inr data) =
                (self, false, [Warning "No data found in spreadsheet"])).
    { unfold read_spreadsheet.
      destruct data as [|h1 [|h2 rest]]; simpl in *; try reflexivity; lia. }
    split; [exact E|]. unfold run. rewrite E. reflexivity.
  - unfold read_spreadsheet.
    destruct data as [|h1 [|h2 rest]]; simpl in Hlen; try lia.
    reflexivity.
Qed.

Lemma read_spreadsheet_short_sheet_witness :
  (read_spreadsheet a_manager (inr [["Calendars"]]) =
     (a_manager, false, [Warning "No data found in spreadsheet"]) /\
   run a_manager (inr [["Calendars"]]) =
     {| run_self := a_manager;
        run_created := [];
        run_log := [Warning "No data found in spreadsheet";
                    Error "No data available to process"] |}) /\
  read_spreadsheet a_manager (inr [["Calendars"]; ["Name"]; ["A"]]) =
    (set_calendar_groups a_manager [("A", [["A"]])], true, []).
Proof.
  split.
  - apply (proj1 (read_spreadsheet_short_sheet a_manager [["Calendars"]])).
    simpl. lia.
  - etransitivity.
    + apply (proj2 (read_spreadsheet_short_sheet a_manager
                      [["Calendars"]; ["Name"]; ["A"]])).
      simpl. lia.
    + reflexivity.
Defined.

(** C2 fails as stated: with two header rows and one data row, fewer than
    2 data rows remain after the headers are removed, yet the read step
    returns [True] without a warning and the run creates the calendar of
    that row. *)
Lemma read_spreadsheet_one_data_row :
  List.length (skipn 2 sheet_with_one_data_row) < 2 /\
  read_spreadsheet a_manager (inr sheet_with_one_data_row) =
    (set_calendar_groups a_manager
       [("A", [one_day_row "A" 2 "09:00" "12:00" "30"])], true, []) /\
  run_created (run a_manager (inr sheet_with_one_data_row)) =
    [("A", [one_day_row "A" 2 "09:00" "12:00" "30"])] /\
  run_log (run a_manager (inr sheet_with_one_data_row)) = [].
Proof.
  split; [simpl; lia|].
  repeat split; vm_compute; reflexivity.
Qed.

(** ** The dictionary *)

Lemma key_eqb_eq (a b : SlotKey) : key_eqb a b = true <-> a = b.
Proof.
  destruct a as [[[a1 a2] a3] a4], b as [[[b1 b2] b3] b4]. simpl.
  rewrite !andb_true_iff, !String.eqb_eq. split.
  - intros [[[-> ->] ->] ->]. reflexivity.
  - intros E. injection E as -> -> -> ->. auto.
Qed.

Lemma key_eqb_refl (a : SlotKey) : key_eqb a a = true.
Proof. now apply key_eqb_eq. Qed.

Lemma key_eqb_neq (a b : SlotKey) : a <> b -> key_eqb a b = false.
Proof.
  intros N. destruct (key_eqb a b) eqn:E; [|reflexivity].
  apply key_eqb_eq in E. contradiction.
Qed.

Lemma int_in_In (x : Z) (l : list Z) : int_in x l = true <-> In x l.
Proof.
  unfold int_in. rewrite existsb_exists. split.
  - intros (y & Hy & E). apply Z.eqb_eq in E. now subst.
  - intros H. exists x. split; [exact H | apply Z.eqb_refl].
Qed.

Lemma dict_contains_true (k : SlotKey) (d : TimeSlots) :
  dict_contains k d = true -> exists v, dict_getitem k d = inr v.
Proof.
  induction d as [|[k' v'] d IH]; simpl; [discriminate|].
  destruct (key_eqb k k'); simpl; [now exists v' | exact IH].
Qed.

Lemma dict_contains_false (k : SlotKey) (d : TimeSlots) :
  dict_contains k d = false ->
  dict_getitem k d = inl KeyError /\
  ~ In k (map fst d) /\
  forall v, dict_setitem k v d = d ++ [(k, v)].
Proof.
  induction d as [|[k' v'] d IH]; simpl.
  - intros _. repeat split; auto.
  - destruct (key_eqb k k') eqn:E; simpl; [discriminate|].
    intros H. destruct (IH H) as (G & N & S). repeat split.
    + exact G.
    + intros [<- | I]; [|contradiction].
      rewrite key_eqb_refl in E. discriminate.
    + intros v. now rewrite S.
Qed.

Lemma dict_getitem_contains (k : SlotKey) (d : TimeSlots) (v : list Z) :
  dict_getitem k d = inr v -> dict_contains k d = true.
Proof.
  induction d as [|[k' v'] d IH]; simpl; [discriminate|].
  destruct (key_eqb k k'); simpl; auto.
Qed.

Lemma dict_getitem_error (k : SlotKey) (d : TimeSlots) (e : exn) :
  dict_getitem k d = inl e -> dict_contains k d = false.
Proof.
  induction d as [|[k' v'] d IH]; simpl; [reflexivity|].
  destruct (key_eqb k k'); simpl; [discriminate | exact IH].
Qed.

Lemma dict_getitem_In (k : SlotKey) (d : TimeSlots) (v : list Z) :
  dict_getitem k d = inr v -> In (k, v) d.
Proof.
  induction d as [|[k' v'] d IH]; simpl; [discriminate|].
  destruct (key_eqb k k') eqn:E.
  - intros [= ->]. apply key_eqb_eq in E. subst. now left.
  - intros H. right. auto.
Qed.

Lemma dict_getitem_setitem (k : SlotKey) (v : list Z) (d : TimeSlots) :
  dict_getitem k (dict_setitem k v d) = inr v.
Proof.
  induction d as [|[k' v'] d IH]; simpl.
  - now rewrite key_eqb_refl.
  - destruct (key_eqb k k') eqn:E; simpl; rewrite E; [reflexivity | exact IH].
Qed.

Lemma dict_getitem_setitem_other (k k' : SlotKey) (v : list Z) (d : TimeSlots) :
  k' <> k -> dict_getitem k' (dict_setitem k v d) = dict_getitem k' d.
Proof.
  intros N. induction d as [|[k0 v0] d IH]; simpl.
  - now rewrite (key_eqb_neq _ _ N).
  - destruct (key_eqb k k0) eqn:E; simpl.
    + apply key_eqb_eq in E. subst k0.
      now rewrite (key_eqb_neq _ _ N).
    + now rewrite IH.
Qed.

Lemma dict_getitem_app_other (k k' : SlotKey) (v : list Z) (d : TimeSlots) :
  k' <> k -> dict_getitem k' (d ++ [(k, v)]) = dict_getitem k' d.
Proof.
  intros N. induction d as [|[k0 v0] d IH]; simpl.
  - now rewrite (key_eqb_neq _ _ N).
  - now rewrite IH.
Qed.

Lemma dict_setitem_keys (k : SlotKey) (v w : list Z) (d : TimeSlots) :
  dict_getitem k d = inr w -> map fst (dict_setitem k v d) = map fst d.
Proof.
  induction d as [|[k' v'] d IH]; simpl; [discriminate|].
  destruct (key_eqb k k'); simpl; [reflexivity|].
  intros H. now rewrite IH.
Qed.

Lemma dict_setitem_Forall (Q : list Z -> Prop) (k : SlotKey) (v : list Z) (d : TimeSlots) :
  Forall (fun entry => Q (snd entry)) d -> Q v ->
  Forall (fun entry => Q (snd entry)) (dict_setitem k v d).
Proof.
  intros Hd Hv. induction Hd as [|[k' v'] d Hx Hd IH]; simpl.
  - now constructor.
  - destruct (key_eqb k k'); constructor; auto.
Qed.

Lemma dict_setitem_app_new (k : SlotKey) (v w : list Z) (d : TimeSlots) :
  ~ In k (map fst d) -> dict_setitem k v (d ++ [(k, w)]) = d ++ [(k, v)].
Proof.
  induction d as [|[k' v'] d IH]; simpl; intros N.
  - now rewrite key_eqb_refl.
  - rewrite key_eqb_neq by (intros ->; tauto).
    rewrite IH by tauto. reflexivity.
Qed.

(** The last lines of the loop body add the day as [file_day] does. *)
Lemma add_day_code (k : SlotKey) (day_num : Z) (ts : TimeSlots) :
  (let ts1 := if negb (dict_contains k ts) then dict_setitem k [] ts else ts in
   days <- dict_getitem k ts1 ;;
   if negb (int_in day_num days)
   then ret (dict_setitem k (days ++ [day_num]) ts1)
   else ret ts1) = inr (file_day k day_num ts).
Proof.
  unfold file_day. cbv zeta.
  destruct (dict_contains k ts) eqn:C; simpl negb; cbv iota.
  - destruct (dict_contains_true k ts C) as [days G]. rewrite G. simpl.
    now destruct (int_in day_num days).
  - destruct (dict_contains_false k ts C) as (G & N & S). rewrite G.
    rewrite dict_getitem_setitem. simpl. rewrite !S.
    now rewrite dict_setitem_app_new.
Qed.

Lemma file_day_has_day (k : SlotKey) (day_num : Z) (ts : TimeSlots) :
  has_day k day_num (file_day k day_num ts).
Proof.
  unfold file_day, has_day.
  destruct (dict_getitem k ts) as [e | days] eqn:G.
  - exists [day_num]. split; [|now left].
    apply dict_getitem_error in G.
    destruct (dict_contains_false k ts G) as (_ & _ & S).
    rewrite <- S. apply dict_getitem_setitem.
  - destruct (int_in day_num days) eqn:I.
    + exists days. split; [exact G | now apply int_in_In].
    + exists (days ++ [day_num]). split; [apply dict_getitem_setitem|].
      apply in_or_app. right. now left.
Qed.

Lemma file_day_keeps (k k' : SlotKey) (day_num d' : Z) (ts : TimeSlots) :
  has_day k' d' ts -> has_day k' d' (file_day k day_num ts).
Proof.
  intros (days' & G' & I'). unfold file_day, has_day.
  destruct (dict_getitem k ts) as [e | days] eqn:G.
  - exists days'. split; [|exact I'].
    rewrite dict_getitem_app_other; [exact G'|].
    intros ->. rewrite G in G'. discriminate.
  - destruct (int_in day_num days); [now exists days'|].
    assert (D : k' = k \/ k' <> k).
    { destruct (key_eqb k' k) eqn:E; [left; now apply key_eqb_eq|].
      right. intros ->. rewrite key_eqb_refl in E. discriminate. }
    destruct D as [-> | N].
    + exists (days ++ [day_num]). split; [apply dict_getitem_setitem|].
      rewrite G in G'. injection G' as <-. apply in_or_app. now left.
    + exists days'. split; [|exact I'].
      now rewrite dict_getitem_setitem_other.
Qed.

Lemma file_day_well_formed (k : SlotKey) (day_num : Z) (ts : TimeSlots) :
  (1 <= day_num <= 6)%Z -> well_formed ts -> well_formed (file_day k day_num ts).
Proof.
  intros R [K F]. unfold file_day.
  destruct (dict_getitem k ts) as [e | days] eqn:G.
  - apply dict_getitem_error in G.
    destruct (dict_contains_false k ts G) as (_ & N & _).
    split.
    + rewrite map_app. simpl.
      apply NoDup_app; [exact K | repeat constructor; simpl; tauto |].
      intros x Hx [<- | []]. contradiction.
    + apply Forall_app. split; [exact F|].
      repeat constructor; simpl; tauto || lia.
  - destruct (int_in day_num days) eqn:I; [now split|].
    split.
    + now rewrite (dict_setitem_keys k _ days).
    + apply (dict_setitem_Forall
               (fun v => NoDup v /\ Forall (fun d => (1 <= d <= 6)%Z) v)); [exact F|].
      apply dict_getitem_In in G.
      rewrite Forall_forall in F. destruct (F _ G) as [ND RG]. simpl in ND, RG.
      split.
      * apply NoDup_app; [exact ND | repeat constructor; simpl; tauto |].
        intros x Hx [<- | []].
        apply int_in_In in Hx. rewrite Hx in I. discriminate.
      * apply Forall_app. split; [exact RG|]. repeat constructor; lia.
Qed.

(** ** [is_valid_time] *)

(** Case analysis on the comparisons of character codes in the goal *)
Ltac code_cases :=
  repeat first
    [ progress cbn -[Z.mul Z.add Z.sub Z.pow Z.of_N Z.of_nat ord]
    | match goal with
      | |- context [split_at_colon ?r] =>
          is_var r; destruct (split_at_colon r) as [[? ?]|]
      | |- context [(?a <=? ?b)%N] => destruct (N.leb_spec a b); try lia
      | |- context [(?a =? ?b)%N] => destruct (N.eqb_spec a b); try lia
      | |- context [(?a <=? ?b)%Z] => destruct (Z.leb_spec a b); try lia
      end ];
  try reflexivity; try lia.

(** The hour and the colon of the pattern take the text up to the first
    colon, which has to be an hour field. *)
Lemma re_H_colon {A : Type} (s : string) (k : Z -> string -> option A) :
  re_H s (fun h r1 => re_colon r1 (k h)) =
  match split_at_colon s with
  | Some (h, m) => if hm_field 23 h then k (literal_value h) m else None
  | None => None
  end.
Proof.
  unfold re_H, re_colon, orelse, hm_field, isdecimal_char, in_range, digit_value.
  destruct s as [|a [|b [|c r]]]; code_cases;
    try (destruct (k _ _); reflexivity).
  all: change (10 ^ Z.of_nat 1)%Z with 10%Z; change (10 ^ Z.of_nat 0)%Z with 1%Z;
    unfold digit_value;
    match goal with
    | |- _ = ?f ?y ?r =>
        match goal with
        | |- context [f ?x r] =>
            tryif constr_eq x y then fail else replace y with x by lia
        end
    end;
    destruct (k _ _); reflexivity.
Qed.

(** The minute of the pattern followed by the end of the text *)
Lemma re_M_end {A : Type} (s : string) (h : A) :
  match re_M s (fun m r3 => Some (h, m, r3)) with
  | Some (_, _, EmptyString) => true
  | _ => false
  end = hm_field 59 s.
Proof.
  unfold re_M, orelse, hm_field, isdecimal_char, in_range, digit_value.
  destruct s as [|a [|b [|c r]]]; code_cases.
Qed.

Lemma strptime_HM_hm_time (s : string) :
  match strptime_HM s with inr _ => true | inl _ => false end = hm_time s.
Proof.
  unfold strptime_HM, hm_time.
  rewrite (re_H_colon s (fun h r2 => re_M r2 (fun m r3 => Some (h, m, r3)))).
  destruct (split_at_colon s) as [[h m]|]; [|reflexivity].
  destruct (hm_field 23 h); [|reflexivity].
  rewrite <- (re_M_end m (literal_value h)). simpl.
  destruct (re_M m _) as [[[h' m'] [|c r]]|]; reflexivity.
Qed.

(** What [is_valid_time] accepts *)
Lemma is_valid_time_spec (time_str : string) :
  is_valid_time time_str = accepted_time time_str.
Proof.
  unfold is_valid_time, accepted_time, eq_nocase.
  change (lower "chiuso") with "chiuso".
  destruct (lower time_str =? "chiuso"); [reflexivity|].
  now rewrite <- strptime_HM_hm_time.
Qed.

(** ** The meeting duration *)

Lemma all_decimal_all_digit (s : string) :
  all_chars isdecimal_char s = true -> all_chars isdigit_char s = true.
Proof.
  induction s as [|c s IH]; simpl; [reflexivity|].
  rewrite !andb_true_iff. intros [Hc Hs]. split; [|auto].
  unfold isdigit_char. now rewrite Hc.
Qed.

Lemma int_digits_decimal (s : string) :
  all_chars isdecimal_char s = true ->
  forall acc after_digit,
  s <> EmptyString \/ after_digit = true ->
  int_digits s acc after_digit =
    inr (acc * 10 ^ Z.of_nat (String.length s) + literal_value s)%Z.
Proof.
  induction s as [|c s IH];
    cbn [int_digits all_chars literal_value String.length];
    intros Hs acc after_digit Hne.
  - destruct Hne as [Hne | ->]; [contradiction|].
    unfold ret. f_equal. simpl. lia.
  - apply andb_true_iff in Hs. destruct Hs as [Hc Hs]. rewrite Hc.
    rewrite (IH Hs) by now right.
    f_equal. rewrite Nat2Z.inj_succ, Z.pow_succ_r by lia. ring.
Qed.

Lemma int_digits_not_decimal (s : string) :
  all_chars isdigit_char s = true ->
  all_chars isdecimal_char s = false ->
  forall acc after_digit, int_digits s acc after_digit = inl ValueError.
Proof.
  induction s as [|c s IH]; simpl; intros Hg Hd acc after_digit; [discriminate|].
  apply andb_true_iff in Hg. destruct Hg as [Hc Hs].
  destruct (isdecimal_char c) eqn:Dc.
  - apply IH; assumption.
  - unfold isdigit_char in Hc. rewrite Dc in Hc. simpl in Hc.
    assert (U : (ord c =? 95)%N = false).
    { apply N.eqb_neq. intros E. rewrite E in Hc. discriminate. }
    rewrite U. reflexivity.
Qed.

Lemma digit_char_not_sign (c : ascii) :
  isdigit_char c = true -> (ord c =? 43)%N = false /\ (ord c =? 45)%N = false.
Proof.
  unfold isdigit_char, isdecimal_char, in_range. intros H.
  split; apply N.eqb_neq; intros E; rewrite E in H; discriminate.
Qed.

Lemma digit_not_int_space (c : ascii) :
  isdigit_char c = true -> negb (int_space c) = true.
Proof.
  unfold isdigit_char, isdecimal_char, int_space, in_range.
  code_cases; intros H; try discriminate H; reflexivity.
Qed.

Lemma int_rstrip_no_space (s : string) :
  all_chars (fun c => negb (int_space c)) s = true -> int_rstrip s = s.
Proof.
  induction s as [|c s IH]; simpl; [reflexivity|].
  intros H. apply andb_true_iff in H. destruct H as [Hc Hs].
  rewrite (IH Hs). apply negb_true_iff in Hc. rewrite Hc.
  now destruct s.
Qed.

Lemma int_strip_no_space (s : string) :
  all_chars (fun c => negb (int_space c)) s = true ->
  int_rstrip (int_lstrip s) = s.
Proof.
  intros H.
  assert (L : int_lstrip s = s).
  { destruct s as [|c s]; [reflexivity|]. simpl in *.
    apply andb_true_iff in H. destruct H as [Hc _].
    apply negb_true_iff in Hc. now rewrite Hc. }
  rewrite L. now apply int_rstrip_no_space.
Qed.

Lemma all_digit_no_int_space (s : string) :
  all_chars isdigit_char s = true ->
  all_chars (fun c => negb (int_space c)) s = true.
Proof.
  induction s as [|c s IH]; simpl; [reflexivity|].
  intros H. apply andb_true_iff in H. destruct H as [Hc Hs].
  now rewrite (digit_not_int_space c Hc), IH.
Qed.

Lemma count_digits_decimal (s : string) :
  all_chars isdecimal_char s = true ->
  count_digits s = N.of_nat (String.length s).
Proof.
  induction s as [|c s IH]; [reflexivity|].
  cbn [all_chars count_digits String.length].
  intros H. apply andb_true_iff in H. destruct H as [Hc Hs].
  rewrite Hc, (IH Hs). lia.
Qed.

(** [int] on a text made of the characters that [isdigit] accepts *)
Lemma int_digit_text (s : string) :
  isdigit s = true ->
  int s =
    if all_chars isdecimal_char s
       && (N.of_nat (String.length s) <=? int_max_str_digits)%N
    then inr (literal_value s)
    else inl ValueError.
Proof.
  unfold isdigit. destruct s as [|c s]; [discriminate|]. intros G.
  unfold int. rewrite (int_strip_no_space _ (all_digit_no_int_space _ G)).
  assert (Gc : isdigit_char c = true).
  { simpl in G. now apply andb_true_iff in G. }
  destruct (digit_char_not_sign c Gc) as [-> ->].
  unfold int_body.
  destruct (all_chars isdecimal_char (String c s)) eqn:D.
  - rewrite int_digits_decimal by (auto; left; discriminate).
    rewrite (count_digits_decimal _ D). unfold bind.
    rewrite N.ltb_antisym.
    destruct (N.of_nat (String.length (String c s)) <=? int_max_str_digits)%N;
      cbn [negb andb]; [|reflexivity].
    unfold ret. f_equal; lia.
  - now rewrite int_digits_not_decimal.
Qed.

(** The duration the loop body computes *)
Lemma meeting_min_spec (meeting_minutes : string) :
  try_except_ValueError
    (if isdigit meeting_minutes then int meeting_minutes else ret 30%Z)
    (ret 30%Z) = inr (minutes_of meeting_minutes).
Proof.
  unfold minutes_of, digit_literal.
  destruct (isdigit meeting_minutes) eqn:G.
  - rewrite (int_digit_text _ G).
    destruct meeting_minutes as [|c s]; [discriminate|].
    now destruct (all_chars isdecimal_char (String c s)
                  && (N.of_nat (String.length (String c s))
                        <=? int_max_str_digits)%N).
  - destruct meeting_minutes as [|c s]; [reflexivity|].
    destruct (all_chars isdecimal_char (String c s)) eqn:D; [|reflexivity].
    apply all_decimal_all_digit in D. unfold isdigit in G.
    rewrite D in G. discriminate.
Qed.

(** ** Decimal texts *)

Lemma string_of_uint_decimal (d : Decimal.uint) :
  all_chars isdecimal_char (NilEmpty.string_of_uint d) = true.
Proof. induction d; simpl; auto. Qed.

Lemma string_of_uint_length (d : Decimal.uint) :
  String.length (NilEmpty.string_of_uint d) = Decimal.nb_digits d.
Proof. induction d; simpl; auto. Qed.

Lemma int_digits_uint_acc (d : Decimal.uint) :
  forall p,
  int_digits (NilEmpty.string_of_uint d) (Z.pos p) true =
    inr (Z.pos (Pos.of_uint_acc d p)).
Proof.
  induction d; intros p;
    cbn [NilEmpty.string_of_uint Pos.of_uint_acc int_digits];
    try reflexivity;
    change (isdecimal_char _) with true; cbv iota;
    match goal with
    | |- int_digits _ ?z true = inr (Z.pos (Pos.of_uint_acc _ ?q)) =>
        replace z with (Z.pos q)
          by (unfold digit_value;
              match goal with
              | |- context [Z.of_N (ord ?c)] =>
                  let v := eval vm_compute in (Z.of_N (ord c)) in
                  change (Z.of_N (ord c)) with v
              end; lia)
    end; apply IHd.
Qed.

Lemma int_digits_uint (d : Decimal.uint) :
  forall after_digit,
  d <> Decimal.Nil \/ after_digit = true ->
  int_digits (NilEmpty.string_of_uint d) 0%Z after_digit =
    inr (Z.of_N (Pos.of_uint d)).
Proof.
  induction d; intros after_digit H;
    cbn [NilEmpty.string_of_uint Pos.of_uint int_digits].
  - destruct H as [H | ->]; [contradiction | reflexivity].
  - change (isdecimal_char _) with true. cbv iota.
    change (10 * 0 + digit_value "0")%Z with 0%Z.
    apply IHd. now right.
  - apply (int_digits_uint_acc d 1).
  - apply (int_digits_uint_acc d 2).
  - apply (int_digits_uint_acc d 3).
  - apply (int_digits_uint_acc d 4).
  - apply (int_digits_uint_acc d 5).
  - apply (int_digits_uint_acc d 6).
  - apply (int_digits_uint_acc d 7).
  - apply (int_digits_uint_acc d 8).
  - apply (int_digits_uint_acc d 9).
Qed.

(** The value of the text of a decimal number *)
Lemma literal_value_uint (d : Decimal.uint) :
  d <> Decimal.Nil ->
  literal_value (NilEmpty.string_of_uint d) = Z.of_N (Pos.of_uint d).
Proof.
  intros N.
  pose proof (int_digits_uint d false (or_introl N)) as U.
  rewrite int_digits_decimal in U.
  - injection U as U. simpl in U. lia.
  - apply string_of_uint_decimal.
  - left. destruct d; try contradiction; discriminate.
Qed.

Lemma decimal_char_cases (c : ascii) :
  isdecimal_char c = true ->
  exists d, forall u,
    NilEmpty.string_of_uint (d u) = String c (NilEmpty.string_of_uint u) /\
    d u <> Decimal.Nil /\
    Decimal.nb_digits (d u) = S (Decimal.nb_digits u).
Proof.
  destruct c as [[] [] [] [] [] [] [] []]; intros H;
    try (vm_compute in H; discriminate H);
    first
      [ exists Decimal.D0; intros u;
        split; [reflexivity | split; [discriminate | reflexivity]]
      | exists Decimal.D1; intros u;
        split; [reflexivity | split; [discriminate | reflexivity]]
      | exists Decimal.D2; intros u;
        split; [reflexivity | split; [discriminate | reflexivity]]
      | exists Decimal.D3; intros u;
        split; [reflexivity | split; [discriminate | reflexivity]]
      | exists Decimal.D4; intros u;
        split; [reflexivity | split; [discriminate | reflexivity]]
      | exists Decimal.D5; intros u;
        split; [reflexivity | split; [discriminate | reflexivity]]
      | exists Decimal.D6; intros u;
        split; [reflexivity | split; [discriminate | reflexivity]]
      | exists Decimal.D7; intros u;
        split; [reflexivity | split; [discriminate | reflexivity]]
      | exists Decimal.D8; intros u;
        split; [reflexivity | split; [discriminate | reflexivity]]
      | exists Decimal.D9; intros u;
        split; [reflexivity | split; [discriminate | reflexivity]] ].
Qed.

(** A text of decimal digits is the text of a decimal number. *)
Lemma decimal_text_uint (s : string) :
  digit_literal s = true ->
  exists d, NilEmpty.string_of_uint d = s /\ d <> Decimal.Nil.
Proof.
  unfold digit_literal. destruct s as [|c s]; [discriminate|].
  revert c. induction s as [|c' s IH]; intros c D;
    cbn [all_chars] in D; apply andb_true_iff in D; destruct D as [Dc Ds].
  - destruct (decimal_char_cases c Dc) as [d Hd].
    exists (d Decimal.Nil). destruct (Hd Decimal.Nil) as (E & N & _).
    split; [exact E | exact N].
  - destruct (IH c' Ds) as (u & Eu & _).
    destruct (decimal_char_cases c Dc) as [d Hd].
    exists (d u). destruct (Hd u) as (E & N & _).
    split; [now rewrite E, Eu | exact N].
Qed.

Lemma decimal_of_N (n : N) :
  decimal (Z.of_N n) = NilEmpty.string_of_uint (N.to_uint n) /\
  N.to_uint n <> Decimal.Nil.
Proof.
  destruct n as [|p]; [split; [reflexivity | discriminate]|].
  unfold decimal. simpl. unfold NilZero.string_of_uint.
  pose proof (DecimalPos.Unsigned.to_uint_nonnil p) as N.
  split; [|exact N]. now destruct (Pos.to_uint p).
Qed.

(** Writing the value of a literal never takes more digits than the
    literal has. *)
Lemma decimal_literal_digits (s : string) :
  digit_literal s = true ->
  (count_digits (decimal (literal_value s)) <= N.of_nat (String.length s))%N.
Proof.
  intros L. destruct (decimal_text_uint s L) as (d & <- & N).
  rewrite (literal_value_uint d N).
  destruct (decimal_of_N (Pos.of_uint d)) as [E _]. rewrite E.
  change (N.to_uint (Pos.of_uint d)) with (N.to_uint (Pos.of_uint d)).
  rewrite DecimalPos.Unsigned.to_of.
  rewrite (count_digits_decimal _ (string_of_uint_decimal _)).
  rewrite !string_of_uint_length.
  pose proof (DecimalFacts.nb_digits_unorm d N). lia.
Qed.

Lemma literal_value_nonneg (s : string) :
  all_chars isdecimal_char s = true -> (0 <= literal_value s)%Z.
Proof.
  induction s as [|c s IH]; simpl; [lia|].
  intros H. apply andb_true_iff in H. destruct H as [Hc Hs].
  specialize (IH Hs).
  assert (0 <= digit_value c)%Z.
  { unfold isdecimal_char, in_range in Hc. unfold digit_value.
    apply andb_true_iff in Hc. destruct Hc as [Lo _].
    apply N.leb_le in Lo. lia. }
  assert (0 <= 10 ^ Z.of_nat (String.length s))%Z by (apply Z.pow_nonneg; lia).
  nia.
Qed.

Lemma minutes_of_nonneg (s : string) : (0 <= minutes_of s)%Z.
Proof.
  unfold minutes_of, digit_literal.
  destruct s as [|c s]; [simpl; lia|].
  destruct (all_chars isdecimal_char (String c s)) eqn:D; [|cbn [andb]; lia].
  destruct (N.of_nat (String.length (String c s)) <=? int_max_str_digits)%N;
    cbn [andb]; [|lia].
  now apply literal_value_nonneg.
Qed.

(** The duration of a cell is written with [int_max_str_digits] digits at
    most. *)
Lemma minutes_of_digits (s : string) :
  (count_digits (decimal (minutes_of s)) <= int_max_str_digits)%N.
Proof.
  unfold minutes_of.
  destruct (digit_literal s) eqn:L; simpl andb; cbv iota.
  - destruct (N.leb_spec (N.of_nat (String.length s)) int_max_str_digits)
      as [Le | Gt].
    + pose proof (decimal_literal_digits s L). lia.
    + vm_compute. discriminate.
  - vm_compute. discriminate.
Qed.

(** [str] returns the decimal text of a number that is short enough. *)
Lemma str_decimal (n : Z) :
  (count_digits (decimal n) <= int_max_str_digits)%N ->
  str n = inr (decimal n).
Proof.
  intros H. unfold str. cbv zeta.
  apply N.ltb_ge in H. now rewrite H.
Qed.

(** [int] reads back the decimal text of a number that is not negative
    and short enough. *)
Lemma int_decimal (n : Z) :
  (0 <= n)%Z ->
  (count_digits (decimal n) <= int_max_str_digits)%N ->
  int (decimal n) = inr n.
Proof.
  intros Pos H.
  destruct (decimal_of_N (Z.to_N n)) as [E N].
  rewrite Z2N.id in E by exact Pos.
  assert (G : isdigit (decimal n) = true).
  { rewrite E. unfold isdigit.
    pose proof (all_decimal_all_digit _ (string_of_uint_decimal (N.to_uint (Z.to_N n)))) as G.
    destruct (N.to_uint (Z.to_N n)); try contradiction; exact G. }
  rewrite (int_digit_text _ G).
  assert (D : all_chars isdecimal_char (decimal n) = true).
  { rewrite E. apply string_of_uint_decimal. }
  rewrite D. rewrite (count_digits_decimal _ D) in H.
  apply N.leb_le in H. rewrite H. simpl andb. cbv iota.
  f_equal. rewrite E, (literal_value_uint _ N).
  assert (R : Pos.of_uint (N.to_uint (Z.to_N n)) = Z.to_N n).
  { destruct (Z.to_N n); [reflexivity | apply DecimalPos.Unsigned.of_to]. }
  rewrite R. now apply Z2N.id.
Qed.

(** ** [process_opening_hours] and the steps of the specification *)

Lemma for_each_fold {A S : Type} (body : A -> S -> res S) (f : S -> A -> S)
    (l : list A) :
  (forall x s, body x s = inr (f s x)) ->
  forall s, for_each l body s = inr (fold_left f l s).
Proof.
  intros H. induction l as [|x l IH]; intros s; simpl; [reflexivity|].
  rewrite H. simpl. apply IH.
Qed.

Lemma fold_left_invariant {S X : Type} (P : S -> Prop) (f : S -> X -> S)
    (l : list X) :
  (forall s x, In x l -> P s -> P (f s x)) ->
  forall s, P s -> P (fold_left f l s).
Proof.
  induction l as [|y l IH]; intros H s Hs; simpl; [exact Hs|].
  apply IH.
  - intros s' x Hx. apply H. now right.
  - apply H; [now left | exact Hs].
Qed.

Lemma fold_left_reaches {S X : Type} (P : S -> Prop) (f : S -> X -> S)
    (l : list X) (x : X) :
  (forall s y, P s -> P (f s y)) ->
  (forall s, P (f s x)) ->
  In x l -> forall s, P (fold_left f l s).
Proof.
  intros Keep Reach. induction l as [|y l IH]; intros Hin s; [contradiction|].
  simpl. destruct Hin as [-> | Hin].
  - apply fold_left_invariant; [intros; now apply Keep | apply Reach].
  - now apply IH.
Qed.

Lemma process_day_spec (r : row) (day_num : Z) (day_col : nat) (ts : TimeSlots) :
  process_day r (day_num, day_col) ts =
    inr match day_key r day_col with
        | Some k => file_day k day_num ts
        | None => ts
        end.
Proof.
  unfold process_day, day_key.
  destruct (Nat.leb_spec (List.length r) (day_col + 2)) as [Short | Long].
  - assert (E : nth_error r (day_col + 2) = None) by now apply nth_error_None.
    rewrite E.
    destruct (nth_error r day_col); [|reflexivity].
    destruct (nth_error r (day_col + 1)); reflexivity.
  - unfold getitem.
    destruct (nth_error r day_col) as [c0|] eqn:E0;
      [|apply nth_error_None in E0; lia].
    destruct (nth_error r (day_col + 1)) as [c1|] eqn:E1;
      [|apply nth_error_None in E1; lia].
    destruct (nth_error r (day_col + 2)) as [c2|] eqn:E2;
      [|apply nth_error_None in E2; lia].
    simpl bind. rewrite !truthy_eqb, !is_valid_time_spec.
    destruct ((strip c0 =? "Chiuso") || (strip c1 =? "Chiuso")
              || (strip c0 =? "") || (strip c1 =? "")); [reflexivity|].
    destruct (accepted_time (strip c0) && accepted_time (strip c1));
      [|reflexivity].
    simpl negb. cbv iota.
    rewrite (meeting_min_spec (strip c2)).
    simpl bind. rewrite (str_decimal _ (minutes_of_digits (strip c2))).
    simpl bind. apply add_day_code.
Qed.

(** The days that are filed: three cells in bounds, times neither closed
    nor empty, both accepted *)
Lemma day_key_Some (r : row) (day_col : nat) (k : SlotKey) :
  day_key r day_col = Some k <->
  exists c0 c1 c2,
    nth_error r day_col = Some c0 /\
    nth_error r (day_col + 1) = Some c1 /\
    nth_error r (day_col + 2) = Some c2 /\
    strip c0 <> "Chiuso" /\ strip c1 <> "Chiuso" /\
    strip c0 <> "" /\ strip c1 <> "" /\
    accepted_time (strip c0) = true /\ accepted_time (strip c1) = true /\
    k = (strip c0, strip c1, decimal (minutes_of (strip c2)), "no").
Proof.
  unfold day_key. split.
  - destruct (nth_error r day_col) as [c0|]; [|discriminate].
    destruct (nth_error r (day_col + 1)) as [c1|]; [|discriminate].
    destruct (nth_error r (day_col + 2)) as [c2|]; [|discriminate].
    destruct (String.eqb_spec (strip c0) "Chiuso"); [discriminate|].
    destruct (String.eqb_spec (strip c1) "Chiuso"); [discriminate|].
    destruct (String.eqb_spec (strip c0) ""); [discriminate|].
    destruct (String.eqb_spec (strip c1) ""); [discriminate|].
    cbn [orb].
    destruct (accepted_time (strip c0)) eqn:A0; [|discriminate].
    destruct (accepted_time (strip c1)) eqn:A1; [|discriminate].
    intros [= <-]. exists c0, c1, c2. repeat split; auto.
  - intros (c0 & c1 & c2 & -> & -> & -> & N0 & N1 & M0 & M1 & -> & -> & ->).
    apply String.eqb_neq in N0, N1, M0, M1. now rewrite N0, N1, M0, M1.
Qed.

Lemma process_row_spec (r : row) (ts : TimeSlots) :
  process_row r ts = inr (file_row ts r).
Proof.
  unfold process_row, file_row. apply for_each_fold.
  intros [day_num day_col] s. apply process_day_spec.
Qed.

Lemma process_opening_hours_spec (group : list row) :
  process_opening_hours group = inr (consolidate group).
Proof.
  unfold process_opening_hours, consolidate. apply for_each_fold.
  intros r s. apply process_row_spec.
Qed.

Lemma days_mapping_range (day_num : Z) (day_col : nat) :
  In (day_num, day_col) days_mapping -> (1 <= day_num <= 6)%Z.
Proof.
  simpl. intros H.
  repeat (destruct H as [H | H]; [injection H as <- _; lia|]).
  contradiction.
Qed.

Lemma file_row_keeps (k : SlotKey) (d : Z) (r : row) (ts : TimeSlots) :
  has_day k d ts -> has_day k d (file_row ts r).
Proof.
  unfold file_row. apply fold_left_invariant.
  intros s day _ Hs. destruct (day_key r (snd day)); [|exact Hs].
  now apply file_day_keeps.
Qed.

Lemma file_row_has_day (k : SlotKey) (day_num : Z) (day_col : nat) (r : row)
    (ts : TimeSlots) :
  In (day_num, day_col) days_mapping -> day_key r day_col = Some k ->
  has_day k day_num (file_row ts r).
Proof.
  intros Hin Hk. unfold file_row.
  apply (fold_left_reaches (has_day k day_num) _ _ (day_num, day_col)).
  - intros s day Hs. destruct (day_key r (snd day)); [|exact Hs].
    now apply file_day_keeps.
  - intros s. simpl. rewrite Hk. apply file_day_has_day.
  - exact Hin.
Qed.

(** Every day a row of the group files is listed under its key in the end. *)
Lemma consolidate_has_day (group : list row) (r : row) (day_num : Z)
    (day_col : nat) (k : SlotKey) :
  In r group -> In (day_num, day_col) days_mapping ->
  day_key r day_col = Some k ->
  has_day k day_num (consolidate group).
Proof.
  intros Hr Hd Hk. unfold consolidate.
  apply (fold_left_reaches (has_day k day_num) _ _ r).
  - intros s y. apply file_row_keeps.
  - intros s. now apply (file_row_has_day k day_num day_col).
  - exact Hr.
Qed.

Lemma consolidate_well_formed (group : list row) : well_formed (consolidate group).
Proof.
  unfold consolidate. apply fold_left_invariant.
  - intros s r _ Hs. unfold file_row.
    apply fold_left_invariant; [|exact Hs].
    intros s' [day_num day_col] Hin Hs'. simpl.
    destruct (day_key r day_col); [|exact Hs'].
    apply file_day_well_formed; [|exact Hs'].
    now apply (days_mapping_range day_num day_col).
  - split; constructor.
Qed.

(** ** The table returned by [process_opening_hours] *)

(** C1 fails as stated: two rows of one group give Monday two different
    rules, and the returned table lists weekday 1 under both keys. *)
Lemma two_rules_on_monday_both_kept :
  process_opening_hours two_rules_on_monday =
    inr [ (("09:00", "12:00", "30", "no"), [1%Z]);
          (("14:00", "18:00", "30", "no"), [1%Z]) ] /\
  ~ one_key_per_day
      [ (("09:00", "12:00", "30", "no"), [1%Z]);
        (("14:00", "18:00", "30", "no"), [1%Z]) ].
Proof.
  split; [vm_compute; reflexivity|].
  intros H.
  specialize (H ("09:00", "12:00", "30", "no") [1%Z]
                ("14:00", "18:00", "30", "no") [1%Z] 1%Z).
  simpl in H. assert (E : ("09:00", "12:00", "30", "no") =
                          ("14:00", "18:00", "30", "no")) by (apply H; auto).
  discriminate E.
Qed.

(** C1, as the code has it.  In the table returned for a group every key
    occurs once and lists weekdays between 1 and 6, each at most once
    under that key.  Days are deduplicated under their own key only: every
    rule that a row of the group gives a weekday is kept, so a weekday with
    two different rules is listed under both keys. *)
Theorem time_slots_days_once_per_key (group : list row) :
  exists ts,
    process_opening_hours group = inr ts /\
    well_formed ts /\
    forall r day_num day_col k,
      In r group -> In (day_num, day_col) days_mapping ->
      day_key r day_col = Some k -> has_day k day_num ts.
Proof.
  exists (consolidate group). split; [apply process_opening_hours_spec|].
  split; [apply consolidate_well_formed|].
  intros r day_num day_col k. apply consolidate_has_day.
Qed.

Lemma time_slots_days_once_per_key_witness :
  exists ts,
    process_opening_hours two_rules_on_monday = inr ts /\
    well_formed ts /\
    has_day ("09:00", "12:00", "30", "no") 1%Z ts /\
    has_day ("14:00", "18:00", "30", "no") 1%Z ts.
Proof.
  destruct (time_slots_days_once_per_key two_rules_on_monday)
    as (ts & E & W & H).
  exists ts. split; [exact E|]. split; [exact W|]. split.
  - apply (H (one_day_row "A" 2 "09:00" "12:00" "30") 1%Z 2).
    + simpl. left. reflexivity.
    + simpl. left. reflexivity.
    + vm_compute. reflexivity.
  - apply (H (one_day_row "Chiuso" 2 "14:00" "18:00" "30") 1%Z 2).
    + simpl. right. left. reflexivity.
    + simpl. left. reflexivity.
    + vm_compute. reflexivity.
Defined.

(** C3 fails as stated in one of its cases: a duration cell that is not a
    number does not skip the day; Monday is filed with 30 minutes. *)
Lemma monday_without_number_not_skipped :
  digit_literal "abc" = false /\
  process_opening_hours monday_without_number =
    inr [ (("09:00", "12:00", "30", "no"), [1%Z]) ].
Proof. split; vm_compute; reflexivity. Qed.

(** C3, as the code has it.  [process_opening_hours] returns a table for
    every group, whatever the lengths and the cells of its rows, and no
    step of the loop raises.  A row with fewer than [day_col + 3] cells
    skips the day; otherwise the three cells are read in bounds, a closed
    or empty time cell or a time that fails validation skips the day, and
    in the remaining case the day is filed, with 30 minutes when the
    duration cell is not a number. *)
Theorem process_opening_hours_total :
  (forall group, exists ts, process_opening_hours group = inr ts) /\
  (forall (r : row) (day_num : Z) (day_col : nat) (ts : TimeSlots),
      (exists ts', process_day r (day_num, day_col) ts = inr ts') /\
      (List.length r < day_col + 3 ->
       process_day r (day_num, day_col) ts = inr ts) /\
      (day_col + 3 <= List.length r ->
       exists c0 c1 c2,
         getitem r day_col = inr c0 /\
         getitem r (day_col + 1) = inr c1 /\
         getitem r (day_col + 2) = inr c2 /\
         ((strip c0 = "Chiuso" \/ strip c1 = "Chiuso" \/
           strip c0 = "" \/ strip c1 = "") ->
          process_day r (day_num, day_col) ts = inr ts) /\
         (is_valid_time (strip c0) && is_valid_time (strip c1) = false ->
          process_day r (day_num, day_col) ts = inr ts) /\
         (strip c0 <> "Chiuso" -> strip c1 <> "Chiuso" ->
          strip c0 <> "" -> strip c1 <> "" ->
          is_valid_time (strip c0) && is_valid_time (strip c1) = true ->
          process_day r (day_num, day_col) ts =
            inr (file_day (strip c0, strip c1, decimal (minutes_of (strip c2)), "no")
                   day_num ts) /\
          (digit_literal (strip c2) = false -> minutes_of (strip c2) = 30%Z)))).
Proof.
  split.
  { intros group. exists (consolidate group). apply process_opening_hours_spec. }
  intros r day_num day_col ts. rewrite process_day_spec. split; [eauto|].
  unfold day_key, getitem. split.
  - intros Short.
    assert (E : nth_error r (day_col + 2) = None) by (apply nth_error_None; lia).
    rewrite E.
    destruct (nth_error r day_col); [|reflexivity].
    destruct (nth_error r (day_col + 1)); reflexivity.
  - intros Long.
    destruct (nth_error r day_col) as [c0|] eqn:E0;
      [|apply nth_error_None in E0; lia].
    destruct (nth_error r (day_col + 1)) as [c1|] eqn:E1;
      [|apply nth_error_None in E1; lia].
    destruct (nth_error r (day_col + 2)) as [c2|] eqn:E2;
      [|apply nth_error_None in E2; lia].
    exists c0, c1, c2.
    split; [reflexivity|]. split; [reflexivity|]. split; [reflexivity|].
    split; [|split].
    + intros Closed.
      assert (C : (strip c0 =? "Chiuso") || (strip c1 =? "Chiuso")
                  || (strip c0 =? "") || (strip c1 =? "") = true).
      { rewrite !orb_true_iff, !String.eqb_eq. tauto. }
      now rewrite C.
    + rewrite !is_valid_time_spec. intros ->.
      now destruct ((strip c0 =? "Chiuso") || (strip c1 =? "Chiuso")
                    || (strip c0 =? "") || (strip c1 =? "")).
    + intros N0 N1 M0 M1 V. split.
      * rewrite !is_valid_time_spec in V. rewrite V.
        apply String.eqb_neq in N0, N1, M0, M1. now rewrite N0, N1, M0, M1.
      * intros D. unfold minutes_of. now rewrite D.
Qed.

Lemma process_opening_hours_total_witness :
  process_day (one_day_row "A" 2 "09:00" "12:00" "abc") (6%Z, 17) [] = inr [] /\
  process_day ["A"; "Chiuso"; "09:00"; "12:00"] (1%Z, 2) [] = inr [] /\
  exists c0 c1 c2,
    getitem (one_day_row "A" 2 "09:00" "12:00" "abc") 2 = inr c0 /\
    getitem (one_day_row "A" 2 "09:00" "12:00" "abc") 3 = inr c1 /\
    getitem (one_day_row "A" 2 "09:00" "12:00" "abc") 4 = inr c2 /\
    process_day (one_day_row "A" 2 "09:00" "12:00" "abc") (1%Z, 2) [] =
      inr (file_day (strip c0, strip c1, decimal (minutes_of (strip c2)), "no") 1%Z []) /\
    minutes_of (strip c2) = 30%Z.
Proof.
  pose proof (proj2 process_opening_hours_total) as T.
  split; [|split].
  - destruct (T (one_day_row "A" 2 "09:00" "12:00" "abc") 6%Z 17 [])
      as (_ & _ & L).
    destruct L as (c0 & c1 & c2 & G0 & G1 & G2 & Closed & _);
      [vm_compute; lia|].
    apply Closed. left.
    vm_compute in G0. injection G0 as <-. reflexivity.
  - destruct (T ["A"; "Chiuso"; "09:00"; "12:00"] 1%Z 2 []) as (_ & S & _).
    apply S. simpl. lia.
  - destruct (T (one_day_row "A" 2 "09:00" "12:00" "abc") 1%Z 2 [])
      as (_ & _ & L).
    destruct L as (c0 & c1 & c2 & G0 & G1 & G2 & _ & _ & Filed);
      [vm_compute; lia|].
    exists c0, c1, c2. repeat split; try assumption.
    all: vm_compute in G0, G1, G2;
      injection G0 as <-; injection G1 as <-; injection G2 as <-.
    + apply Filed; try discriminate. vm_compute. reflexivity.
    + apply Filed; try discriminate; vm_compute; reflexivity.
Defined.

(** C6 fails as stated: "9:30" and "chiuso" are neither "Chiuso" nor a
    time written HH:MM with two digits for the hour, yet neither Monday,
    which opens at "9:30", nor Tuesday, which opens at "chiuso", is
    skipped. *)
Lemma one_digit_hour_and_lower_case_not_skipped :
  "9:30" <> "Chiuso" /\ hhmm_time "9:30" = false /\
  "chiuso" <> "Chiuso" /\ hhmm_time "chiuso" = false /\
  process_opening_hours one_digit_hour_and_lower_case =
    inr [ (("9:30", "12:00", "30", "no"), [1%Z]);
          (("chiuso", "13:00", "30", "no"), [2%Z]) ].
Proof.
  repeat split; try discriminate; vm_compute; reflexivity.
Qed.

(** C6, as the code has it.  A time cell passes validation when, trimmed,
    it is "chiuso" in any letter case or a time "H:M" with a hour 0..23 and
    a minute 0..59 of one or two digits each.  For every row and every day
    band whose begin or end cell does not pass, that day is skipped, while
    every other day of the row whose cells are valid is listed in the
    returned table under its own key. *)
Theorem invalid_time_skips_day (r : row) (day_num : Z) (day_col : nat)
    (c0 c1 : string) :
  nth_error r day_col = Some c0 ->
  nth_error r (day_col + 1) = Some c1 ->
  accepted_time (strip c0) && accepted_time (strip c1) = false ->
  (is_valid_time (strip c0) && is_valid_time (strip c1) = false) /\
  (forall ts, process_day r (day_num, day_col) ts = inr ts) /\
  (forall group day_num' day_col' k,
      In r group -> In (day_num', day_col') days_mapping ->
      day_key r day_col' = Some k ->
      exists ts, process_opening_hours group = inr ts /\ has_day k day_num' ts).
Proof.
  intros E0 E1 Bad. split; [now rewrite !is_valid_time_spec|]. split.
  - intros ts. rewrite process_day_spec. unfold day_key.
    rewrite E0, E1, Bad.
    destruct (nth_error r (day_col + 2)); [|reflexivity].
    now destruct ((strip c0 =? "Chiuso") || (strip c1 =? "Chiuso")
                  || (strip c0 =? "") || (strip c1 =? "")).
  - intros group day_num' day_col' k Hr Hd Hk.
    exists (consolidate group). split; [apply process_opening_hours_spec|].
    now apply (consolidate_has_day group r day_num' day_col').
Qed.

Lemma invalid_time_skips_day_witness :
  (is_valid_time "25:61" && is_valid_time "12:00" = false) /\
  (forall ts,
     process_day
       ["A"; "Chiuso"; "25:61"; "12:00"; "30"; "9:30"; "12:00"; "30"]
       (1%Z, 2) ts = inr ts) /\
  exists ts,
    process_opening_hours
      [["A"; "Chiuso"; "25:61"; "12:00"; "30"; "9:30"; "12:00"; "30"]] = inr ts /\
    has_day ("9:30", "12:00", "30", "no") 2%Z ts.
Proof.
  destruct (invalid_time_skips_day
              ["A"; "Chiuso"; "25:61"; "12:00"; "30"; "9:30"; "12:00"; "30"]
              1%Z 2 "25:61" "12:00") as (V & S & O).
  - reflexivity.
  - reflexivity.
  - vm_compute. reflexivity.
  - split; [exact V|]. split; [exact S|].
    apply (O [["A"; "Chiuso"; "25:61"; "12:00"; "30"; "9:30"; "12:00"; "30"]]
             2%Z 5).
    + left. reflexivity.
    + simpl. right. left. reflexivity.
    + vm_compute. reflexivity.
Defined.

(** C7 fails as stated: a duration cell of 4301 digits is a non-negative
    integer literal, yet its value is not used: [int] refuses a text of
    more than 4300 digits, the [ValueError] is caught, and Monday is filed
    with 30 minutes. *)
Lemma long_literal_defaults_to_30 :
  digit_literal literal_4301_digits = true /\
  String.length literal_4301_digits = 4301 /\
  process_opening_hours monday_with_long_literal =
    inr [ (("09:00", "12:00", "30", "no"), [1%Z]) ].
Proof. repeat split; vm_compute; reflexivity. Qed.

(** C7, as the code has it.  For every day band of a row of the group
    whose begin and end times are valid: when the duration cell, trimmed,
    is not a non-negative integer literal, or is one of more than 4300
    digits, the day is listed in the returned table under the key built
    with "30"; when it is a literal of 4300 digits at most, the day is
    listed under the key built with its value. *)
Theorem meeting_minutes_default (group : list row) (r : row) (day_num : Z)
    (day_col : nat) (c0 c1 c2 : string) :
  In r group -> In (day_num, day_col) days_mapping ->
  nth_error r day_col = Some c0 ->
  nth_error r (day_col + 1) = Some c1 ->
  nth_error r (day_col + 2) = Some c2 ->
  strip c0 <> "Chiuso" -> strip c1 <> "Chiuso" ->
  strip c0 <> "" -> strip c1 <> "" ->
  is_valid_time (strip c0) = true -> is_valid_time (strip c1) = true ->
  exists ts,
    process_opening_hours group = inr ts /\
    (digit_literal (strip c2) = false ->
     has_day (strip c0, strip c1, "30", "no") day_num ts) /\
    (digit_literal (strip c2) = true ->
     4300 < String.length (strip c2) ->
     has_day (strip c0, strip c1, "30", "no") day_num ts) /\
    (digit_literal (strip c2) = true ->
     String.length (strip c2) <= 4300 ->
     has_day (strip c0, strip c1, decimal (literal_value (strip c2)), "no")
       day_num ts).
Proof.
  intros Hr Hd E0 E1 E2 N0 N1 M0 M1 V0 V1.
  exists (consolidate group). split; [apply process_opening_hours_spec|].
  assert (K : day_key r day_col =
              Some (strip c0, strip c1, decimal (minutes_of (strip c2)), "no")).
  { unfold day_key. rewrite E0, E1, E2.
    apply String.eqb_neq in N0, N1, M0, M1. rewrite N0, N1, M0, M1.
    rewrite <- !is_valid_time_spec, V0, V1. reflexivity. }
  pose proof (consolidate_has_day group r day_num day_col _ Hr Hd K) as H.
  unfold minutes_of in H.
  split; [|split].
  - intros D. rewrite D in H. exact H.
  - intros D Long. rewrite D in H.
    assert (L : (N.of_nat (String.length (strip c2)) <=? int_max_str_digits)%N
                = false).
    { apply N.leb_gt. unfold int_max_str_digits. lia. }
    rewrite L in H. exact H.
  - intros D Short. rewrite D in H.
    assert (L : (N.of_nat (String.length (strip c2)) <=? int_max_str_digits)%N
                = true).
    { apply N.leb_le. unfold int_max_str_digits. lia. }
    rewrite L in H. exact H.
Qed.

Lemma meeting_minutes_default_witness :
  (exists ts,
     process_opening_hours
       [["A"; "Chiuso"; "09:00"; "12:00"; "abc"; "14:00"; "18:00"; "045"]] = inr ts /\
     has_day ("09:00", "12:00", "30", "no") 1%Z ts /\
     has_day ("14:00", "18:00", "45", "no") 2%Z ts) /\
  (exists ts,
     process_opening_hours monday_with_long_literal = inr ts /\
     has_day ("09:00", "12:00", "30", "no") 1%Z ts).
Proof.
  split.
  - set (r := ["A"; "Chiuso"; "09:00"; "12:00"; "abc"; "14:00"; "18:00"; "045"]).
    destruct (meeting_minutes_default [r] r 1%Z 2 "09:00" "12:00" "abc")
      as (ts & E & D30 & _);
      try reflexivity; try discriminate;
      try (simpl; left; reflexivity).
    destruct (meeting_minutes_default [r] r 2%Z 5 "14:00" "18:00" "045")
      as (ts' & E' & _ & _ & D45);
      try reflexivity; try discriminate;
      try (simpl; left; reflexivity);
      try (simpl; right; left; reflexivity).
    rewrite E in E'. injection E' as <-.
    exists ts. split; [exact E|]. split.
    + apply D30. reflexivity.
    + apply D45; [reflexivity | simpl; lia].
  - destruct (meeting_minutes_default monday_with_long_literal
                (one_day_row "A" 2 "09:00" "12:00" literal_4301_digits)
                1%Z 2 "09:00" "12:00" literal_4301_digits)
      as (ts & E & _ & Long & _);
      try (vm_compute; reflexivity); try discriminate;
      try (simpl; left; reflexivity).
    exists ts. split; [exact E|].
    apply Long; [vm_compute; reflexivity|].
    assert (L : String.length (strip literal_4301_digits) = 4301)
      by (vm_compute; reflexivity).
    rewrite L. lia.
Defined.

(** ** [create_opening_hours] *)

Lemma insert_sorted_perm (x : Z) (l : list Z) : Permutation (x :: l) (insert_sorted x l).
Proof.
  induction l as [|y l IH]; simpl; [reflexivity|].
  destruct (x <=? y)%Z; [reflexivity|].
  rewrite perm_swap. now constructor.
Qed.

Lemma insert_sorted_sorted (x : Z) (l : list Z) :
  StronglySorted Z.le l -> StronglySorted Z.le (insert_sorted x l).
Proof.
  induction 1 as [|y l Hl IH Hy]; simpl.
  - repeat constructor.
  - destruct (Z.leb_spec x y) as [Le | Gt].
    + constructor; [now constructor|].
      constructor; [exact Le|].
      eapply Forall_impl; [|exact Hy]. intros z Hz. lia.
    + constructor; [exact IH|].
      apply (Permutation_Forall (insert_sorted_perm x l)).
      constructor; [lia | exact Hy].
Qed.

(** [sorted] returns its argument in ascending order. *)
Lemma sorted_spec (l : list Z) :
  Permutation l (sorted l) /\ StronglySorted Z.le (sorted l).
Proof.
  induction l as [|x l [P S]]; simpl.
  - split; constructor.
  - split.
    + rewrite <- insert_sorted_perm. now constructor.
    + now apply insert_sorted_sorted.
Qed.

(** C4. A group of two rows, the first with "09:00", "12:00", "30" in the
    Monday columns 2..4 and the second with the same cells in the Tuesday
    columns 5..7, every other day closed: consolidation followed by rule
    construction posts exactly one rule, with [days_of_week = [1, 2]],
    [begin_hour = "09:00"], [end_hour = "12:00"] and [meeting_minutes = 30]. *)
Theorem monday_and_tuesday_one_rule (post : OpeningHours -> res unit)
    (self : CalendarManager) (name0 name1 : string) :
  opening_hours_for_group post self
    [ one_day_row name0 2 "09:00" "12:00" "30";
      one_day_row name1 5 "09:00" "12:00" "30" ] =
  inr [ {| oh_name := "Orario 09:00-12:00";
           oh_start_date := start_date self;
           oh_end_date := end_date self;
           days_of_week := [1; 2]%Z;
           begin_hour := "09:00";
           end_hour := "12:00";
           is_moderated := false;
           meeting_minutes := 30%Z;
           interval_minutes := 0%Z;
           meeting_queue := 1%Z |} ].
Proof.
  unfold opening_hours_for_group.
  assert (E : process_opening_hours
                [ one_day_row name0 2 "09:00" "12:00" "30";
                  one_day_row name1 5 "09:00" "12:00" "30" ] =
              inr [ (("09:00", "12:00", "30", "no"), [1; 2]%Z) ]).
  { vm_compute. reflexivity. }
  rewrite E. unfold bind, ret, create_opening_hours, fold_left, create_one, fst.
  assert (O : opening_hours_of self (("09:00", "12:00", "30", "no"), [1; 2]%Z) =
              inr {| oh_name := "Orario 09:00-12:00";
                     oh_start_date := start_date self;
                     oh_end_date := end_date self;
                     days_of_week := [1; 2]%Z;
                     begin_hour := "09:00";
                     end_hour := "12:00";
                     is_moderated := false;
                     meeting_minutes := 30%Z;
                     interval_minutes := 0%Z;
                     meeting_queue := 1%Z |}).
  { reflexivity. }
  rewrite O. simpl app. now destruct (post _).
Qed.

(** * Further properties *)

(** ** Cleaned cells *)

Lemma clean_cell_normal (cell : string) :
  clean_cell cell <> "" /\
  strip (clean_cell cell) = clean_cell cell /\
  (clean_cell cell = "Chiuso" \/ closed_word (clean_cell cell) = false).
Proof.
  rewrite clean_cell_spec.
  destruct (closed_word (strip cell)) eqn:C.
  - split; [discriminate|]. split; [reflexivity | now left].
  - split; [|split].
    + intros E. rewrite E in C. discriminate.
    + apply strip_idem.
    + now right.
Qed.

(** X1. Every cell of a cleaned grid is trimmed and not empty, and it is
    either exactly "Chiuso" or not a closed word in any letter case. *)
Theorem cleaned_cells_normal_form (data : list row) :
  Forall
    (Forall (fun cell =>
               cell <> "" /\ strip cell = cell /\
               (cell = "Chiuso" \/ closed_word cell = false)))
    (clean_spreadsheet_data data).
Proof.
  rewrite clean_spreadsheet_data_map.
  apply Forall_map, Forall_forall. intros r _.
  apply Forall_map, Forall_forall. intros cell _.
  apply clean_cell_normal.
Qed.

(** ** Groups *)

Lemma truthy_strip (s : string) : truthy (strip s) = true -> truthy s = true.
Proof. destruct s; [discriminate | reflexivity]. Qed.

Lemma continuation_first_cell (cell0 : string) (cells : list string) :
  negb (truthy (strip cell0)) || (strip cell0 =? "Chiuso") =
  continuation (cell0 :: cells).
Proof. unfold continuation. simpl hd. now rewrite truthy_eqb. Qed.

Lemma set_calendar_groups_twice (self : CalendarManager) (g g' : list calendar_group) :
  set_calendar_groups (set_calendar_groups self g) g' = set_calendar_groups self g'.
Proof. reflexivity. Qed.

Lemma set_calendar_groups_same (self : CalendarManager) :
  set_calendar_groups self (calendar_groups self) = self.
Proof. now destruct self. Qed.

(** The loop builds, from the first row on, what [groups_from_right]
    builds from the last row on. *)
Lemma group_loop_groups (data : list row) :
  Forall (fun r => r <> []) data ->
  forall self current_name current_group,
  flushed (group_loop data self current_name current_group) =
    (set_calendar_groups self
       (calendar_groups self ++
          if truthy current_name
          then (current_name, current_group ++ fst (groups_from_right data))
                 :: snd (groups_from_right data)
          else snd (groups_from_right data)),
     inr tt).
Proof.
  induction 1 as [|r data Hr _ IH]; intros self current_name current_group.
  - simpl. destruct (truthy current_name).
    + now rewrite app_nil_r.
    + now rewrite app_nil_r, set_calendar_groups_same.
  - destruct r as [|cell0 cells]; [contradiction|].
    simpl group_loop. unfold getitem. simpl nth_error. cbv iota beta.
    rewrite (continuation_first_cell cell0 cells).
    simpl groups_from_right.
    destruct (groups_from_right data) as [waiting groups] eqn:G.
    destruct (continuation (cell0 :: cells)) eqn:C.
    + destruct (truthy current_name) eqn:T; rewrite IH, T; simpl.
      * now rewrite <- app_assoc.
      * reflexivity.
    + assert (T0 : truthy cell0 = true).
      { apply truthy_strip. unfold continuation in C. simpl hd in C.
        apply orb_false_iff in C. destruct C as [C _].
        rewrite <- truthy_eqb in C. now destruct (truthy (strip cell0)). }
      cbv zeta. rewrite IH, T0. simpl fst. simpl snd. simpl hd.
      destruct (truthy current_name); simpl.
      * rewrite set_calendar_groups_twice, <- app_assoc, app_nil_r. reflexivity.
      * reflexivity.
Qed.

Lemma group_calendar_data_groups (self : CalendarManager) (data : list row) :
  Forall (fun r => r <> []) data ->
  group_calendar_data self data =
    (set_calendar_groups self
       (calendar_groups self ++ snd (groups_from_right data)), inr tt).
Proof.
  intros H. apply (group_loop_groups data H self "" []).
Qed.

Lemma groups_from_right_rows (data : list row) :
  (fst (groups_from_right data)
     ++ List.concat (map snd (snd (groups_from_right data))))%list = data /\
  forallb continuation (fst (groups_from_right data)) = true.
Proof.
  induction data as [|r data [IH1 IH2]]; simpl; [now split|].
  destruct (groups_from_right data) as [waiting groups].
  destruct (continuation r) eqn:C; simpl in *.
  - rewrite IH1, C, IH2. now split.
  - rewrite IH1. now split.
Qed.

Lemma groups_from_right_shape (data : list row) :
  Forall (fun g => exists first others,
                     snd g = first :: others /\
                     fst g = hd "" first /\
                     continuation first = false /\
                     forallb continuation others = true)
         (snd (groups_from_right data)).
Proof.
  induction data as [|r data IH]; simpl; [constructor|].
  pose proof (groups_from_right_rows data) as [_ W].
  destruct (groups_from_right data) as [waiting groups].
  destruct (continuation r) eqn:C; simpl in *; [exact IH|].
  constructor; [|exact IH].
  exists r, waiting. simpl. auto.
Qed.

Lemma groups_from_right_count (data : list row) :
  List.length (snd (groups_from_right data)) =
  List.length (filter (fun r => negb (continuation r)) data).
Proof.
  induction data as [|r data IH]; simpl; [reflexivity|].
  destruct (groups_from_right data) as [waiting groups].
  destruct (continuation r); simpl in *; now rewrite IH.
Qed.

(** X2. When every row has a first cell, the rows of the appended groups,
    taken in order, are the rows of the input in order, less the
    continuation rows that come before the first name: no other row is
    dropped, repeated or moved. *)
Theorem group_calendar_data_keeps_rows (self : CalendarManager) (data : list row) :
  Forall (fun r => r <> []) data ->
  exists orphans added,
    group_calendar_data self data =
      (set_calendar_groups self (calendar_groups self ++ added), inr tt) /\
    data = (orphans ++ List.concat (map snd added))%list /\
    forallb continuation orphans = true /\
    (forall first rest, List.concat (map snd added) = first :: rest ->
                        continuation first = false).
Proof.
  intros H.
  exists (fst (groups_from_right data)), (snd (groups_from_right data)).
  split; [now apply group_calendar_data_groups|].
  destruct (groups_from_right_rows data) as [R W].
  split; [now symmetry|]. split; [exact W|].
  intros first rest E.
  pose proof (groups_from_right_shape data) as S.
  destruct (snd (groups_from_right data)) as [|g gs]; [discriminate|].
  inversion S as [|? ? (f & o & Eg & _ & Cf & _) _]; subst.
  destruct g as [name rows]. simpl in Eg. subst rows.
  simpl in E. now injection E as <- _.
Qed.

Lemma group_calendar_data_keeps_rows_witness :
  exists orphans added,
    group_calendar_data a_manager [[""; "o"]; ["A"; "x"]; ["Chiuso"; "y"]] =
      (set_calendar_groups a_manager (calendar_groups a_manager ++ added), inr tt) /\
    [[""; "o"]; ["A"; "x"]; ["Chiuso"; "y"]] = (orphans ++ List.concat (map snd added))%list /\
    forallb continuation orphans = true /\
    (forall first rest, List.concat (map snd added) = first :: rest ->
                        continuation first = false).
Proof.
  apply (group_calendar_data_keeps_rows a_manager
           [[""; "o"]; ["A"; "x"]; ["Chiuso"; "y"]]).
  repeat constructor; discriminate.
Defined.

(** X3. When every row has a first cell, each appended group starts with a
    row that is not a continuation row, is named by the first cell of that
    row, as it stands, and holds continuation rows only after it; there
    are as many groups as rows that are not continuation rows. *)
Theorem group_calendar_data_group_shape (self : CalendarManager) (data : list row) :
  Forall (fun r => r <> []) data ->
  exists added,
    group_calendar_data self data =
      (set_calendar_groups self (calendar_groups self ++ added), inr tt) /\
    Forall (fun g => exists first others,
                       snd g = first :: others /\
                       fst g = hd "" first /\
                       continuation first = false /\
                       forallb continuation others = true) added /\
    List.length added =
      List.length (filter (fun r => negb (continuation r)) data).
Proof.
  intros H. exists (snd (groups_from_right data)).
  split; [now apply group_calendar_data_groups|].
  split; [apply groups_from_right_shape | apply groups_from_right_count].
Qed.

Lemma group_calendar_data_group_shape_witness :
  exists added,
    group_calendar_data a_manager [[" A "; "x"]; ["Chiuso"; "y"]; ["B"]] =
      (set_calendar_groups a_manager (calendar_groups a_manager ++ added), inr tt) /\
    Forall (fun g => exists first others,
                       snd g = first :: others /\
                       fst g = hd "" first /\
                       continuation first = false /\
                       forallb continuation others = true) added /\
    List.length added = 2.
Proof.
  apply (group_calendar_data_group_shape a_manager
           [[" A "; "x"]; ["Chiuso"; "y"]; ["B"]]).
  repeat constructor; discriminate.
Defined.

(** X4. A sheet without a name, that is one with continuation rows only,
    the empty sheet included, appends no group and leaves [self] as it
    is. *)
Theorem group_calendar_data_no_name (self : CalendarManager) (data : list row) :
  Forall (fun r => r <> []) data ->
  forallb continuation data = true ->
  group_calendar_data self data = (self, inr tt).
Proof.
  intros H C. rewrite group_calendar_data_groups by exact H.
  assert (E : snd (groups_from_right data) = []).
  { pose proof (groups_from_right_count data) as L.
    assert (F : filter (fun r => negb (continuation r)) data = []).
    { clear L H. induction data as [|r data IH]; simpl in *; [reflexivity|].
      apply andb_true_iff in C. destruct C as [Cr C].
      rewrite Cr. simpl. auto. }
    rewrite F in L. now destruct (snd (groups_from_right data)). }
  rewrite E, app_nil_r. now rewrite set_calendar_groups_same.
Qed.

Lemma group_calendar_data_no_name_witness :
  group_calendar_data a_manager [[""; "x"]; ["Chiuso"; "y"]; ["  "]] =
    (a_manager, inr tt).
Proof.
  apply (group_calendar_data_no_name a_manager [[""; "x"]; ["Chiuso"; "y"]; ["  "]]).
  - repeat constructor; discriminate.
  - reflexivity.
Defined.

(** The loop only appends to the groups, also when it stops on an
    exception. *)
Lemma group_loop_appends (data : list row) :
  forall self current_name current_group,
  exists added,
    fst (group_loop data self current_name current_group) =
      set_calendar_groups self (calendar_groups self ++ added).
Proof.
  induction data as [|r data IH]; intros self current_name current_group.
  - exists []. simpl. now rewrite app_nil_r, set_calendar_groups_same.
  - simpl group_loop. destruct (getitem r 0) as [e | cell0].
    + exists []. simpl. now rewrite app_nil_r, set_calendar_groups_same.
    + destruct (negb (truthy (strip cell0)) || (strip cell0 =? "Chiuso")).
      * destruct (truthy current_name); apply IH.
      * cbv zeta. destruct (truthy current_name); [|apply IH].
        destruct (IH (set_calendar_groups self
                        (calendar_groups self ++ [(current_name, current_group)]))
                     cell0 [r]) as [added E].
        exists ((current_name, current_group) :: added).
        rewrite E. simpl. rewrite set_calendar_groups_twice, <- app_assoc.
        reflexivity.
Qed.

(** X5. Whatever the rows, [group_calendar_data] only appends to
    [self.calendar_groups]: the groups held before come first and
    unchanged, the dates are untouched, also when the method raises. *)
Theorem group_calendar_data_appends (self : CalendarManager) (data : list row) :
  exists added,
    fst (group_calendar_data self data) =
      set_calendar_groups self (calendar_groups self ++ added).
Proof.
  unfold group_calendar_data.
  destruct (group_loop_appends data self "" []) as [added E].
  destruct (group_loop data self "" []) as [self' [e | [n g]]]; simpl in *.
  - now exists added.
  - destruct (truthy n); simpl.
    + exists (added ++ [(n, g)]). rewrite E. simpl.
      now rewrite set_calendar_groups_twice, <- app_assoc.
    + now exists added.
Qed.

(** ** The read step *)

Lemma clean_keeps_empty_rows (data : list row) :
  In [] (clean_spreadsheet_data data) <-> In [] data.
Proof.
  rewrite clean_spreadsheet_data_map, in_map_iff. split.
  - intros (r & E & Hr). destruct r; [exact Hr | discriminate].
  - intros H. now exists [].
Qed.

Lemma no_empty_row_dec (data : list row) :
  Forall (fun r => r <> []) data \/ In [] data.
Proof.
  induction data as [|r data [IH | IH]].
  - left. constructor.
  - destruct r as [|c cs].
    + right. now left.
    + left. constructor; [discriminate | exact IH].
  - right. now right.
Qed.

Lemma no_empty_row_not_in (data : list row) :
  Forall (fun r => r <> []) data <-> ~ In [] data.
Proof.
  rewrite Forall_forall. split.
  - intros H I. now apply (H [] I).
  - intros H r I ->. contradiction.
Qed.

Lemma skipn_2_In_length (data : list row) (r : row) :
  In r (skipn 2 data) -> 2 <= List.length data.
Proof.
  destruct data as [|h1 [|h2 rest]]; simpl; try contradiction. lia.
Qed.

(** The read step on a sheet that passes the row count *)
Lemma read_spreadsheet_long (self : CalendarManager) (data : list row) :
  2 <= List.length data ->
  read_spreadsheet self (inr data) =
    match group_calendar_data self (clean_spreadsheet_data (skipn 2 data)) with
    | (self', inr _) => (self', true, [])
    | (self', inl e) => (self', false, [ErrorExc "Error reading spreadsheet" e])
    end.
Proof.
  intros L. unfold read_spreadsheet.
  destruct data as [|h1 [|h2 rest]]; simpl in L; try lia. reflexivity.
Qed.

Lemma group_calendar_data_empty_row (self : CalendarManager) (data : list row) :
  In [] data ->
  exists added,
    group_calendar_data self data =
      (set_calendar_groups self (calendar_groups self ++ added), inl IndexError).
Proof.
  intros H.
  destruct (group_loop_empty_row data H self "" []) as [self' E].
  destruct (group_loop_appends data self "" []) as [added A].
  exists added. unfold group_calendar_data.
  rewrite E in *. simpl in A. now rewrite A.
Qed.

(** The two ways the read step ends on a sheet that was fetched *)
Lemma read_spreadsheet_cases (self : CalendarManager) (data : list row) :
  (2 <= List.length data /\
   Forall (fun r => r <> []) (skipn 2 data) /\
   read_spreadsheet self (inr data) =
     (set_calendar_groups self
        (calendar_groups self ++
           snd (groups_from_right (clean_spreadsheet_data (skipn 2 data)))),
      true, [])) \/
  ((List.length data < 2 \/ In [] (skipn 2 data)) /\
   snd (fst (read_spreadsheet self (inr data))) = false).
Proof.
  destruct (Nat.lt_ge_cases (List.length data) 2) as [Short | Long].
  { right. split; [now left|]. unfold read_spreadsheet.
    destruct data as [|h1 [|h2 rest]]; simpl in *; try reflexivity; lia. }
  rewrite (read_spreadsheet_long self data Long).
  destruct (no_empty_row_dec (skipn 2 data)) as [Full | Hole].
  - left. split; [exact Long|]. split; [exact Full|].
    assert (F : Forall (fun r => r <> []) (clean_spreadsheet_data (skipn 2 data))).
    { apply no_empty_row_not_in. rewrite clean_keeps_empty_rows.
      now apply no_empty_row_not_in. }
    now rewrite (group_calendar_data_groups self _ F).
  - right. split; [now right|].
    pose proof (proj2 (clean_keeps_empty_rows _) Hole) as Hole'.
    destruct (group_calendar_data_empty_row self _ Hole') as [added E].
    now rewrite E.
Qed.

(** X6. [read_spreadsheet] returns [True] exactly when the sheet could be
    fetched, has 2 rows or more, and no row after the first two is without
    cells; it then logs nothing. *)
Theorem read_spreadsheet_true_iff (self : CalendarManager) (fetched : res (list row)) :
  (snd (fst (read_spreadsheet self fetched)) = true <->
   exists data, fetched = inr data /\ 2 <= List.length data /\
                Forall (fun r => r <> []) (skipn 2 data)) /\
  (snd (fst (read_spreadsheet self fetched)) = true ->
   snd (read_spreadsheet self fetched) = []).
Proof.
  destruct fetched as [e | data].
  { split; [split|]; simpl; try discriminate.
    intros (d & E & _). discriminate. }
  destruct (read_spreadsheet_cases self data)
    as [(Long & Full & E) | ([Short | Hole] & E)].
  - rewrite E. simpl. split; [split|]; auto. intros _. now exists data.
  - rewrite E. split; [split|]; try discriminate.
    intros (d & Ed & L & _). injection Ed as Ed. subst d. lia.
  - rewrite E. split; [split|]; try discriminate.
    intros (d & Ed & _ & F). injection Ed as Ed. subst d.
    apply no_empty_row_not_in in F. contradiction.
Qed.

Lemma read_spreadsheet_true_iff_witness :
  snd (fst (read_spreadsheet a_manager (inr sheet_with_one_data_row))) = true /\
  snd (read_spreadsheet a_manager (inr sheet_with_one_data_row)) = [].
Proof.
  pose proof (read_spreadsheet_true_iff a_manager (inr sheet_with_one_data_row))
    as [[_ Back] Quiet].
  assert (T : snd (fst (read_spreadsheet a_manager (inr sheet_with_one_data_row)))
              = true).
  { apply Back. exists sheet_with_one_data_row.
    split; [reflexivity|]. split; [simpl; lia|].
    repeat constructor; discriminate. }
  split; [exact T | exact (Quiet T)].
Defined.

(** X7. A row without cells anywhere after the two header rows stops the
    whole run: [read_spreadsheet] logs the [IndexError] and returns
    [False], and [run] creates no calendar at all, not even for the groups
    that were complete before that row, which stay in
    [self.calendar_groups]. *)
Theorem run_empty_row_creates_nothing (self : CalendarManager) (data : list row) :
  In [] (skipn 2 data) ->
  run_created (run self (inr data)) = [] /\
  run_log (run self (inr data)) =
    [ ErrorExc "Error reading spreadsheet" IndexError;
      Error "No data available to process" ] /\
  exists added,
    calendar_groups (run_self (run self (inr data))) =
      (calendar_groups self ++ added)%list.
Proof.
  intros Hole. unfold run.
  rewrite (read_spreadsheet_long self data (skipn_2_In_length _ _ Hole)).
  pose proof (proj2 (clean_keeps_empty_rows _) Hole) as Hole'.
  destruct (group_calendar_data_empty_row self _ Hole') as [added E].
  rewrite E. simpl. repeat split. now exists added.
Qed.

Lemma run_empty_row_creates_nothing_witness :
  run_created (run a_manager (inr [["h"]; ["h"]; ["A"; "x"]; ["B"]; []; ["C"]])) = [] /\
  calendar_groups
    (run_self (run a_manager (inr [["h"]; ["h"]; ["A"; "x"]; ["B"]; []; ["C"]])))
  = [("A", [["A"; "x"]])].
Proof.
  destruct (run_empty_row_creates_nothing a_manager
              [["h"]; ["h"]; ["A"; "x"]; ["B"]; []; ["C"]]) as (C & _ & _).
  - simpl. right. right. left. reflexivity.
  - split; [exact C | reflexivity].
Defined.

Lemma groups_from_right_incl (data : list row) (g : calendar_group) (r : row) :
  In g (snd (groups_from_right data)) -> In r (snd g) -> In r data.
Proof.
  intros Hg Hr.
  destruct (groups_from_right_rows data) as [R _]. rewrite <- R.
  apply in_or_app. right. apply in_concat.
  exists (snd g). split; [|exact Hr]. now apply in_map.
Qed.

(** X8. After a read that returned [True], the groups held before come
    first and every new group has a name that is trimmed, not empty and
    not a closed word, and rows made of cleaned cells only. *)
Theorem read_spreadsheet_group_names (self self' : CalendarManager)
    (data : list row) (log : list log_entry) :
  read_spreadsheet self (inr data) = (self', true, log) ->
  exists added,
    calendar_groups self' = (calendar_groups self ++ added)%list /\
    Forall (fun g =>
              fst g <> "" /\ strip (fst g) = fst g /\ closed_word (fst g) = false /\
              Forall (Forall (fun cell => clean_cell cell = cell)) (snd g))
           added.
Proof.
  intros E.
  destruct (read_spreadsheet_cases self data) as [(L & Full & E') | (_ & E')];
    [|rewrite E in E'; discriminate].
  set (cleaned := clean_spreadsheet_data (skipn 2 data)) in *.
  assert (F : Forall (fun r => r <> []) cleaned).
  { apply no_empty_row_not_in. unfold cleaned. rewrite clean_keeps_empty_rows.
    now apply no_empty_row_not_in. }
  rewrite E' in E. injection E as <- _.
  exists (snd (groups_from_right cleaned)). split; [reflexivity|].
  pose proof (groups_from_right_shape cleaned) as S.
  rewrite Forall_forall in S |- *. intros g Hg.
  assert (Rows : Forall (Forall (fun cell => clean_cell cell = cell)) (snd g)).
  { apply Forall_forall. intros r Hr.
    pose proof (groups_from_right_incl cleaned g r Hg Hr) as I.
    unfold cleaned in I. rewrite clean_spreadsheet_data_map in I.
    apply in_map_iff in I. destruct I as (r0 & <- & _).
    apply Forall_map, Forall_forall. intros c _. apply clean_cell_idem. }
  destruct (S g Hg) as (first & others & Eg & En & Cf & _).
  destruct g as [name rows]. simpl in Eg, En, Rows |- *. subst rows.
  assert (Ne : first <> []).
  { rewrite Forall_forall in F. apply F.
    apply (groups_from_right_incl cleaned (name, first :: others) first Hg).
    now left. }
  inversion Rows as [|? ? Hfirst _]; subst.
  destruct first as [|cell0 cells]; [contradiction|].
  inversion Hfirst as [|? ? Hc _]; subst. simpl hd.
  unfold continuation in Cf. simpl hd in Cf.
  apply orb_false_iff in Cf. destruct Cf as [C1 C2].
  destruct (clean_cell_normal cell0) as (N1 & N2 & N3).
  rewrite Hc in N1, N2, N3. rewrite N2 in C2. apply String.eqb_neq in C2.
  repeat split; auto.
  destruct N3 as [N3 | N3]; [contradiction | exact N3].
Qed.

Lemma read_spreadsheet_group_names_witness :
  exists added,
    calendar_groups
      (set_calendar_groups a_manager [("A", [one_day_row "A" 2 "09:00" "12:00" "30"])])
    = (calendar_groups a_manager ++ added)%list /\
    Forall (fun g =>
              fst g <> "" /\ strip (fst g) = fst g /\ closed_word (fst g) = false /\
              Forall (Forall (fun cell => clean_cell cell = cell)) (snd g))
           added.
Proof.
  apply (read_spreadsheet_group_names a_manager _ sheet_with_one_data_row []).
  vm_compute. reflexivity.
Defined.

(** ** The content of the table *)

Lemma has_day_nil (k : SlotKey) (d : Z) : ~ has_day k d [].
Proof. intros (days & E & _). discriminate. Qed.

Lemma key_eq_dec (a b : SlotKey) : a = b \/ a <> b.
Proof.
  destruct (key_eqb a b) eqn:E.
  - left. now apply key_eqb_eq.
  - right. intros ->. rewrite key_eqb_refl in E. discriminate.
Qed.

(** [file_day] lists nothing but the day it files. *)
Lemma file_day_inv (k k' : SlotKey) (d d' : Z) (ts : TimeSlots) :
  has_day k d (file_day k' d' ts) -> has_day k d ts \/ (k = k' /\ d = d').
Proof.
  unfold file_day. intros (days & G & I).
  destruct (dict_getitem k' ts) as [e | days'] eqn:G'.
  - apply dict_getitem_error in G'.
    destruct (dict_contains_false k' ts G') as (_ & _ & S).
    destruct (key_eq_dec k k') as [-> | N].
    + right. split; [reflexivity|].
      rewrite <- S, dict_getitem_setitem in G. injection G as <-.
      destruct I as [<- | []]. reflexivity.
    + left. exists days. split; [|exact I].
      now rewrite dict_getitem_app_other in G.
  - destruct (int_in d' days'); [left; now exists days|].
    destruct (key_eq_dec k k') as [-> | N].
    + rewrite dict_getitem_setitem in G. injection G as <-.
      apply in_app_or in I. destruct I as [I | [<- | []]].
      * left. now exists days'.
      * right. now split.
    + left. exists days. split; [|exact I].
      now rewrite dict_getitem_setitem_other in G.
Qed.

Lemma file_day_present (k : SlotKey) (d : Z) (ts : TimeSlots) :
  has_day k d ts -> file_day k d ts = ts.
Proof.
  intros (days & G & I). unfold file_day. rewrite G.
  apply int_in_In in I. now rewrite I.
Qed.

(** Every listed day was filed by a row of the group. *)
Lemma consolidate_sound (group : list row) (k : SlotKey) (d : Z) :
  has_day k d (consolidate group) ->
  exists r c, In r group /\ In (d, c) days_mapping /\ day_key r c = Some k.
Proof.
  revert k d. unfold consolidate.
  apply (fold_left_invariant
           (fun ts => forall k d, has_day k d ts ->
              exists r c, In r group /\ In (d, c) days_mapping /\
                          day_key r c = Some k)).
  - intros s r Hr Hs. unfold file_row.
    apply (fold_left_invariant
             (fun ts => forall k d, has_day k d ts ->
                exists r c, In r group /\ In (d, c) days_mapping /\
                            day_key r c = Some k)); [|exact Hs].
    intros s' [d' c'] Hd Hs' k d H. simpl in H.
    destruct (day_key r c') as [k'|] eqn:K; [|now apply Hs'].
    apply file_day_inv in H. destruct H as [H | [-> ->]]; [now apply Hs'|].
    now exists r, c'.
  - intros k d H. now apply has_day_nil in H.
Qed.

Lemma file_day_nonempty (k : SlotKey) (d : Z) (ts : TimeSlots) :
  Forall (fun entry => snd entry <> []) ts ->
  Forall (fun entry => snd entry <> []) (file_day k d ts).
Proof.
  intros F. unfold file_day.
  destruct (dict_getitem k ts) as [e | days].
  - apply Forall_app. split; [exact F|]. repeat constructor. discriminate.
  - destruct (int_in d days); [exact F|].
    apply (dict_setitem_Forall (fun v => v <> [])); [exact F|].
    now destruct days.
Qed.

Lemma consolidate_nonempty (group : list row) :
  Forall (fun entry => snd entry <> []) (consolidate group).
Proof.
  unfold consolidate. apply fold_left_invariant; [|constructor].
  intros s r _ Hs. unfold file_row. apply fold_left_invariant; [|exact Hs].
  intros s' day _ Hs'. destruct (day_key r (snd day)); [|exact Hs'].
  now apply file_day_nonempty.
Qed.

Lemma dict_getitem_of_In (k : SlotKey) (v : list Z) (d : TimeSlots) :
  NoDup (map fst d) -> In (k, v) d -> dict_getitem k d = inr v.
Proof.
  induction d as [|[k' v'] d IH]; simpl; intros ND I; [contradiction|].
  inversion ND as [|? ? N ND']; subst.
  destruct I as [[= -> ->] | I].
  - now rewrite key_eqb_refl.
  - rewrite key_eqb_neq; [now apply IH|].
    intros ->. apply N. apply in_map_iff. now exists (k', v).
Qed.

(** An entry of the table lists some day. *)
Lemma consolidate_entry_day (group : list row) (k : SlotKey) (days : list Z) :
  In (k, days) (consolidate group) -> exists d, has_day k d (consolidate group).
Proof.
  intros I.
  pose proof (consolidate_nonempty group) as NE.
  rewrite Forall_forall in NE. specialize (NE _ I). simpl in NE.
  destruct days as [|d days]; [contradiction|].
  exists d, (d :: days). split; [|now left].
  apply dict_getitem_of_In; [apply consolidate_well_formed | exact I].
Qed.

(** X9. The table lists a weekday under a key exactly when some row of the
    group files that day under that key: nothing is listed that no row
    asked for, and nothing a row asked for is missing. *)
Theorem table_lists_exactly_filed_days (group : list row) :
  exists ts,
    process_opening_hours group = inr ts /\
    forall k d,
      has_day k d ts <->
      exists r c, In r group /\ In (d, c) days_mapping /\ day_key r c = Some k.
Proof.
  exists (consolidate group). split; [apply process_opening_hours_spec|].
  intros k d. split.
  - apply consolidate_sound.
  - intros (r & c & Hr & Hd & K). now apply (consolidate_has_day group r d c).
Qed.

(** X10. The table is empty exactly when every day of every row of the
    group is skipped; this is the case in which [create_calendar] posts no
    opening hours. *)
Theorem table_empty_iff_all_skipped (group : list row) :
  process_opening_hours group = inr [] <->
  forall r d c, In r group -> In (d, c) days_mapping -> day_key r c = None.
Proof.
  rewrite process_opening_hours_spec. split.
  - intros E r d c Hr Hd.
    destruct (day_key r c) as [k|] eqn:K; [|reflexivity].
    pose proof (consolidate_has_day group r d c k Hr Hd K) as H.
    injection E as E. rewrite E in H. now apply has_day_nil in H.
  - intros Skip. f_equal.
    destruct (consolidate group) as [|[k days] ts] eqn:E; [reflexivity|].
    destruct (consolidate_entry_day group k days) as [d H].
    { rewrite E. now left. }
    apply consolidate_sound in H. destruct H as (r & c & Hr & Hd & K).
    rewrite (Skip r d c Hr Hd) in K. discriminate.
Qed.

(** The shape of the entries of the table *)
Lemma consolidate_entry_shape (group : list row) (k : SlotKey) (days : list Z) :
  In (k, days) (consolidate group) ->
  days <> [] /\
  exists b e minutes,
    k = (b, e, decimal minutes, "no") /\
    (0 <= minutes)%Z /\
    (count_digits (decimal minutes) <= int_max_str_digits)%N /\
    b <> "Chiuso" /\ e <> "Chiuso" /\
    is_valid_time b = true /\ is_valid_time e = true.
Proof.
  intros I. split.
  { pose proof (consolidate_nonempty group) as NE.
    rewrite Forall_forall in NE. exact (NE _ I). }
  destruct (consolidate_entry_day group k days I) as [d H].
  apply consolidate_sound in H. destruct H as (r & c & _ & _ & K).
  apply day_key_Some in K.
  destruct K as (c0 & c1 & c2 & _ & _ & _ & N0 & N1 & _ & _ & A0 & A1 & ->).
  exists (strip c0), (strip c1), (minutes_of (strip c2)).
  rewrite !is_valid_time_spec.
  repeat split; auto using minutes_of_nonneg, minutes_of_digits.
Qed.

(** X11. Every entry of the table lists at least one weekday, and its key
    is made of a begin and an end time that passed validation and are not
    "Chiuso", of the decimal text of a duration that is not negative, and
    of the flag "no". *)
Theorem table_entries_shape (group : list row) :
  exists ts,
    process_opening_hours group = inr ts /\
    Forall (fun entry =>
              snd entry <> [] /\
              exists b e minutes,
                fst entry = (b, e, decimal minutes, "no") /\
                (0 <= minutes)%Z /\
                b <> "Chiuso" /\ e <> "Chiuso" /\
                is_valid_time b = true /\ is_valid_time e = true)
           ts.
Proof.
  exists (consolidate group). split; [apply process_opening_hours_spec|].
  apply Forall_forall. intros [k days] I.
  destruct (consolidate_entry_shape group k days I)
    as (NE & b & e & minutes & K & Pos & _ & Rest).
  split; [exact NE|]. exists b, e, minutes. auto.
Qed.

Lemma fold_left_fixed {S X : Type} (f : S -> X -> S) (l : list X) (s : S) :
  (forall x, In x l -> f s x = s) -> fold_left f l s = s.
Proof.
  induction l as [|x l IH]; intros H; simpl; [reflexivity|].
  rewrite H by now left. apply IH. intros y Hy. apply H. now right.
Qed.

Lemma file_row_present (r : row) (ts : TimeSlots) :
  (forall d c k, In (d, c) days_mapping -> day_key r c = Some k -> has_day k d ts) ->
  file_row ts r = ts.
Proof.
  intros H. unfold file_row. apply fold_left_fixed.
  intros [d c] Hd. simpl.
  destruct (day_key r c) as [k|] eqn:K; [|reflexivity].
  apply file_day_present. now apply (H d c).
Qed.

(** X12. Rows that the group already holds add nothing: the table of the
    group followed by any of its own rows again is the table of the group,
    in the same order. *)
Theorem repeated_rows_add_nothing (group again : list row) :
  incl again group ->
  process_opening_hours (group ++ again) = process_opening_hours group.
Proof.
  intros Sub. rewrite !process_opening_hours_spec. f_equal.
  unfold consolidate. rewrite fold_left_app.
  apply fold_left_fixed. intros r Hr.
  apply file_row_present. intros d c k Hd K.
  apply (consolidate_has_day group r d c k); auto.
Qed.

Lemma repeated_rows_add_nothing_witness :
  process_opening_hours (two_rules_on_monday ++ two_rules_on_monday) =
  process_opening_hours two_rules_on_monday.
Proof.
  apply (repeated_rows_add_nothing two_rules_on_monday two_rules_on_monday).
  apply incl_refl.
Defined.

(** X13. The order of the rows of a group decides the order of the
    entries only: two groups with the same rows in another order list the
    same weekdays under the same keys. *)
Theorem row_order_keeps_content (group group' : list row) :
  Permutation group group' ->
  exists ts ts',
    process_opening_hours group = inr ts /\
    process_opening_hours group' = inr ts' /\
    forall k d, has_day k d ts <-> has_day k d ts'.
Proof.
  intros P. exists (consolidate group), (consolidate group').
  rewrite !process_opening_hours_spec. repeat split.
  - intros H. apply consolidate_sound in H. destruct H as (r & c & Hr & Hd & K).
    apply (consolidate_has_day group' r d c); auto.
    now apply (Permutation_in _ P).
  - intros H. apply consolidate_sound in H. destruct H as (r & c & Hr & Hd & K).
    apply (consolidate_has_day group r d c); auto.
    now apply (Permutation_in _ (Permutation_sym P)).
Qed.

Lemma row_order_keeps_content_witness :
  exists ts ts',
    process_opening_hours two_rules_on_monday = inr ts /\
    process_opening_hours (rev two_rules_on_monday) = inr ts' /\
    forall k d, has_day k d ts <-> has_day k d ts'.
Proof.
  apply (row_order_keeps_content two_rules_on_monday (rev two_rules_on_monday)).
  apply Permutation_rev.
Defined.

(** X14. On rows made of cleaned cells the begin and the end of every key
    are times "H:M": the lower-case "chiuso" that [is_valid_time] lets
    through does not reach a key once the sheet is cleaned. *)
Theorem cleaned_rows_keys_are_times (group : list row) :
  Forall (Forall (fun cell => clean_cell cell = cell)) group ->
  exists ts,
    process_opening_hours group = inr ts /\
    Forall (fun entry =>
              exists b e m flag,
                fst entry = (b, e, m, flag) /\
                hm_time b = true /\ hm_time e = true)
           ts.
Proof.
  intros Clean.
  exists (consolidate group). split; [apply process_opening_hours_spec|].
  apply Forall_forall. intros [k days] I. simpl.
  destruct (consolidate_entry_day group k days I) as [d H].
  apply consolidate_sound in H. destruct H as (r & c & Hr & _ & K).
  apply day_key_Some in K.
  destruct K as (c0 & c1 & c2 & E0 & E1 & _ & N0 & N1 & _ & _ & A0 & A1 & ->).
  rewrite Forall_forall in Clean. specialize (Clean r Hr).
  rewrite Forall_forall in Clean.
  assert (T : forall cell, In cell r -> strip cell <> "Chiuso" ->
                accepted_time (strip cell) = true -> hm_time (strip cell) = true).
  { intros cell Hc N A. specialize (Clean cell Hc).
    destruct (clean_cell_normal cell) as (_ & St & Cl).
    rewrite Clean in St, Cl. rewrite St in *.
    destruct Cl as [-> | Cl]; [contradiction|].
    unfold closed_word in Cl. unfold accepted_time in A.
    apply orb_false_iff in Cl. destruct Cl as [Cl _].
    apply orb_false_iff in Cl. destruct Cl as [Cl _].
    now rewrite Cl in A. }
  exists (strip c0), (strip c1), (decimal (minutes_of (strip c2))), "no".
  split; [reflexivity|]. split.
  - apply T; auto. now apply nth_error_In in E0.
  - apply T; auto. now apply nth_error_In in E1.
Qed.

Lemma cleaned_rows_keys_are_times_witness :
  exists ts,
    process_opening_hours
      (clean_spreadsheet_data [["A"; ""; " 9:30 "; "12:00"; "30"; "chiuso"; "13:00"; "30"]])
      = inr ts /\
    Forall (fun entry =>
              exists b e m flag,
                fst entry = (b, e, m, flag) /\
                hm_time b = true /\ hm_time e = true)
           ts.
Proof.
  apply (cleaned_rows_keys_are_times
           (clean_spreadsheet_data
              [["A"; ""; " 9:30 "; "12:00"; "30"; "chiuso"; "13:00"; "30"]])).
  repeat constructor.
Defined.

(** X15. On the strings of the model, those whose characters lie below
    U+0100, [is_valid_time] returns [True] exactly for "chiuso" in any
    letter case and for the times "H:M" with a hour 0..23 and a minute
    0..59 of one or two digits 0..9 each. *)
Theorem is_valid_time_accepts (time_str : string) :
  is_valid_time time_str = true <->
  lower time_str = "chiuso" \/ hm_time time_str = true.
Proof.
  rewrite is_valid_time_spec. unfold accepted_time, eq_nocase.
  change (lower "chiuso") with "chiuso".
  rewrite orb_true_iff, String.eqb_eq. reflexivity.
Qed.

(** ** The rules that are posted *)

Lemma create_loop (post : OpeningHours -> res unit) (self : CalendarManager)
    (ts : TimeSlots) :
  forall posted success,
  fold_left (create_one post self) ts (posted, success) =
    (posted ++
       flat_map (fun item =>
                   match opening_hours_of self item with
                   | inr opening_hours => [opening_hours]
                   | inl _ => []
                   end) ts,
     success &&
       forallb (fun item =>
                  match opening_hours_of self item with
                  | inr opening_hours => succeeded (post opening_hours)
                  | inl _ => false
                  end) ts)%list.
Proof.
  induction ts as [|item ts IH]; intros posted success; simpl.
  - now rewrite app_nil_r, andb_true_r.
  - destruct (opening_hours_of self item) as [e | oh]; simpl.
    + rewrite IH. now rewrite andb_false_r.
    + destruct (post oh); simpl; rewrite IH, <- app_assoc; simpl.
      * now rewrite andb_false_r.
      * reflexivity.
Qed.

(** X17. [create_opening_hours] goes through every entry of the table: it
    posts, in the order of the table, the payload of each entry that can
    be built, whatever happened to the entries before, and it returns
    [True] exactly when every entry was built and every post succeeded.
    What is posted does not depend on the answers of the server. *)
Theorem create_opening_hours_every_entry (post : OpeningHours -> res unit)
    (self : CalendarManager) (ts : TimeSlots) :
  fst (create_opening_hours post self ts) =
    flat_map (fun item =>
                match opening_hours_of self item with
                | inr opening_hours => [opening_hours]
                | inl _ => []
                end) ts /\
  snd (create_opening_hours post self ts) =
    forallb (fun item =>
               match opening_hours_of self item with
               | inr opening_hours => succeeded (post opening_hours)
               | inl _ => false
               end) ts.
Proof.
  unfold create_opening_hours. rewrite create_loop. now split.
Qed.

Lemma sorted_strict (l : list Z) :
  NoDup l -> StronglySorted Z.lt (sorted l).
Proof.
  intros ND. destruct (sorted_spec l) as [P S].
  pose proof (Permutation_NoDup P ND) as ND'.
  clear P ND. induction S as [|x l' S IH F]; [constructor|].
  inversion ND' as [|? ? N ND'']; subst.
  constructor; [now apply IH|].
  rewrite Forall_forall in F |- *. intros y Hy.
  specialize (F y Hy).
  assert (x <> y) by (intros ->; contradiction). lia.
Qed.

(** The payload of an entry whose minutes are the text of a number *)
Lemma opening_hours_of_decimal (self : CalendarManager) (b e flag : string)
    (minutes : Z) (days : list Z) :
  (0 <= minutes)%Z ->
  (count_digits (decimal minutes) <= int_max_str_digits)%N ->
  opening_hours_of self ((b, e, decimal minutes, flag), days) =
    inr (payload self minutes ((b, e, decimal minutes, flag), days)).
Proof.
  intros Pos Short. unfold opening_hours_of, payload.
  now rewrite (int_decimal minutes Pos Short).
Qed.

Lemma flat_map_built {A B : Type} (g : A -> res B) (R : A -> B -> Prop) (l : list A) :
  (forall item, In item l -> exists b, g item = inr b /\ R item b) ->
  Forall2 R l
    (flat_map (fun item => match g item with
                           | inr b => [b]
                           | inl _ => []
                           end) l).
Proof.
  induction l as [|item l IH]; intros H; simpl; [constructor|].
  destruct (H item (or_introl eq_refl)) as (b & E & Rb). rewrite E. simpl.
  constructor; [exact Rb|]. apply IH. intros i Hi. apply H. now right.
Qed.

(** X18. Consolidation followed by rule construction posts one rule for
    each entry of the table, in the order of the table, and no entry is
    lost to a failure of [int]: the rule carries the begin and end time of
    the key, the duration the key holds as text, which is not negative,
    and the weekdays of the entry in strictly ascending order, all between
    1 and 6 and at least one; it is never moderated. *)
Theorem group_rules_posted (post : OpeningHours -> res unit)
    (self : CalendarManager) (group : list row) :
  exists ts posted,
    process_opening_hours group = inr ts /\
    opening_hours_for_group post self group = inr posted /\
    Forall2
      (fun entry rule =>
         fst entry = (begin_hour rule, end_hour rule,
                      decimal (meeting_minutes rule), "no") /\
         (0 <= meeting_minutes rule)%Z /\
         Permutation (snd entry) (days_of_week rule) /\
         StronglySorted Z.lt (days_of_week rule) /\
         Forall (fun d => 1 <= d <= 6)%Z (days_of_week rule) /\
         days_of_week rule <> [] /\
         is_moderated rule = false /\
         oh_name rule = ("Orario " ++ begin_hour rule ++ "-" ++ end_hour rule)%string /\
         oh_start_date rule = start_date self /\
         oh_end_date rule = end_date self /\
         interval_minutes rule = 0%Z /\ meeting_queue rule = 1%Z)
      ts posted.
Proof.
  exists (consolidate group),
    (flat_map (fun item =>
                 match opening_hours_of self item with
                 | inr opening_hours => [opening_hours]
                 | inl _ => []
                 end) (consolidate group)).
  split; [apply process_opening_hours_spec|]. split.
  { unfold opening_hours_for_group. rewrite process_opening_hours_spec.
    simpl bind. destruct (consolidate group) as [|item ts] eqn:E; [reflexivity|].
    unfold create_opening_hours. now rewrite create_loop. }
  apply flat_map_built. intros [k days] I.
  destruct (consolidate_entry_shape group k days I)
    as (NE & b & e & minutes & -> & Pos & Short & _).
  destruct (consolidate_well_formed group) as [_ W].
  rewrite Forall_forall in W. destruct (W _ I) as [ND RG]. simpl in ND, RG.
  exists (payload self minutes ((b, e, decimal minutes, "no"), days)).
  split; [now apply opening_hours_of_decimal|].
  destruct (sorted_spec days) as [P S].
  simpl. repeat split; auto.
  - now apply sorted_strict.
  - now apply (Permutation_Forall P).
  - intros E. rewrite E in P. apply Permutation_sym, Permutation_nil in P.
    contradiction.
Qed.

(** ** The prompts *)

Lemma truthy_strip_neq (s : string) : truthy (strip s) = true <-> strip s <> "".
Proof. destruct (strip s); simpl; split; congruence. Qed.


(** X19. [get_required_input] skips the lines that are blank once trimmed,
    writing the reminder for each, and returns the first line that is not,
    exactly as typed; when every line is blank it keeps asking until the
    input ends and [input] raises [EOFError]. *)
Theorem get_required_input_first_answer (prompt : string) (is_password : bool)
    (blanks : list string) :
  Forall (fun l => strip l = "") blanks ->
  let ask := if is_password then PromptHidden prompt else Prompt prompt in
  let asked :=
    (List.concat
       (repeat [ask; Printed "This field is required. Please try again."]
          (List.length blanks)) ++ [ask])%list in
  (forall value rest,
      strip value <> "" ->
      get_required_input prompt is_password (blanks ++ value :: rest) =
        (Some value, rest, asked)) /\
  get_required_input prompt is_password blanks = (None, [], asked).
Proof.
  intros B. cbv zeta.
  induction B as [|l blanks Hl _ [IH1 IH2]]; simpl.
  - split; [|reflexivity]. intros value rest N.
    apply truthy_strip_neq in N. now rewrite N.
  - rewrite Hl. simpl. split.
    + intros value rest N. now rewrite (IH1 value rest N).
    + now rewrite IH2.
Qed.

Lemma get_required_input_first_answer_witness :
  get_required_input "Enter API username: " false ["  "; ""; " me "; "x"] =
    (Some " me ", ["x"],
     [ Prompt "Enter API username: ";
       Printed "This field is required. Please try again.";
       Prompt "Enter API username: ";
       Printed "This field is required. Please try again.";
       Prompt "Enter API username: " ]) /\
  fst (fst (get_required_input "Enter API password: " true ["  "; ""])) = None.
Proof.
  destruct (get_required_input_first_answer "Enter API username: " false ["  "; ""])
    as [A _]; [repeat constructor|].
  destruct (get_required_input_first_answer "Enter API password: " true ["  "; ""])
    as [_ E]; [repeat constructor|].
  split.
  - apply (A " me " ["x"]). discriminate.
  - cbv zeta in E. now rewrite E.
Defined.



